(** * HTTP error values and their conversion to and from responses

    A shallow embedding of [src/index.ts]: the class [HttpError] with its
    constructor, [toResponse] and the static [fromResponse], and the subclass
    [MissingFieldError].

    The code runs on the Web platform: it builds and reads [Response]
    objects and calls [JSON.stringify] and [JSON.parse].  The platform is
    modelled as far as the code observes it:
    - a JavaScript value is a JSON value ([value]); [undefined] is [None];
      an object used as a record ([Record<string, T>]) is a finite map from
      property names;
    - a number is an integer: the code compares the status with 200 and 300
      and never computes on the numbers inside [details];
    - [JSON.stringify] and [JSON.parse] are an interface ([JSON.codec]) that
      a host implements;
    - a string is a sequence of 8-bit characters;
    - a record whose property order is observed (the headers of a value,
      from which the platform builds a header list) is the list of its
      properties in the order they were inserted;
    - a [Response] is the data an HTTP response carries: a status, a reason
      phrase, a header list, and a body, not read yet, that either reads as
      a text or fails to be read; a response object adds whether its body
      was already read or is locked;
    - the constructor of [Response] and [clone] make the checks of the
      Fetch standard and throw ([Response.construct], [Response.clone]);
      [Response.new] is the response the constructor builds once its
      checks have passed;
    - an [async] function is a computation that writes to the console and
      ends fulfilled with a value or rejected with an exception. *)

From stdpp Require Import gmap strings list fin_maps pretty.
From Stdlib Require Import ZArith Ascii.

Local Open Scope Z_scope.

(** ** JavaScript values *)

#[warnings="-register-all"]
Inductive value : Type :=
  | VNull
  | VBool (b : bool)
  | VNum (n : Z)
  | VStr (s : string)
  | VArr (l : list value)
  | VObj (o : gmap string value).

Module JS.

(** [ToBoolean]: [null], [false], [0] and the empty string are falsy;
    every array and every object is truthy. *)
Definition truthy (v : value) : bool :=
  match v with
  | VNull => false
  | VBool b => b
  | VNum n => negb (n =? 0)
  | VStr s => negb (String.eqb s "")
  | VArr _ | VObj _ => true
  end.

(** The [typeof] operator; [typeof null] and [typeof []] are both
    ["object"]. *)
Definition typeof (v : value) : string :=
  match v with
  | VNull => "object"
  | VBool _ => "boolean"
  | VNum _ => "number"
  | VStr _ => "string"
  | VArr _ | VObj _ => "object"
  end.

(** The characters of a string, each as a string of length one. *)
Fixpoint chars (s : string) : list string :=
  match s with
  | EmptyString => []
  | String c s' => String c EmptyString :: chars s'
  end.

(** A list as an object whose property names are the indices in decimal. *)
Definition indexed {A : Type} (l : list A) : gmap string A :=
  list_to_map (imap (λ (i : nat) (x : A), (pretty i, x)) l).

(** The own enumerable properties of a value: what [{...v}] copies.  An
    array has its elements under their indices, a string its characters,
    and [null], a boolean or a number has none. *)
Definition own_properties (v : value) : gmap string value :=
  match v with
  | VObj o => o
  | VArr l => indexed l
  | VStr s => indexed (VStr <$> chars s)
  | VNull | VBool _ | VNum _ => ∅
  end.

(** [v[k]]: [None] is [undefined]. *)
Definition get_property (k : string) (v : value) : option value :=
  own_properties v !! k.

(** [k in v], for a name [k] that the prototypes of objects and arrays do
    not define (the code asks for ["error"] only). *)
Definition has_property (k : string) (v : value) : bool :=
  bool_decide (is_Some (get_property k v)).

(** [a || b] on an optional value: [undefined] and the falsy values give
    [b]. *)
Definition or_else (a : option value) (b : value) : value :=
  match a with
  | Some v => if truthy v then v else b
  | None => b
  end.

(** [a || b] on strings: the empty string is falsy. *)
Definition string_or_else (a b : string) : string :=
  if String.eqb a "" then b else a.

(** The members of an object literal, [k: v] and [...o], and its
    evaluation from left to right: a later member replaces an earlier
    property of the same name. *)
Inductive member (A : Type) : Type :=
  | Property (k : string) (v : A)
  | Spread (o : gmap string A).
Arguments Property {A} k v.
Arguments Spread {A} o.

Definition define {A : Type} (acc : gmap string A) (m : member A)
    : gmap string A :=
  match m with
  | Property k v => <[k := v]> acc
  | Spread o => o ∪ acc
  end.

Definition object_literal {A : Type} (ms : list (member A))
    : gmap string A :=
  foldl define ∅ ms.

(** *** Records in insertion order

    An object whose properties are enumerated: the list of its properties
    in the order they were inserted, each name once.  (An object enumerates
    names that are array indices first; they are not moved here: no header
    of such a name shares it with a name of another spelling, so what
    [Headers.get] answers does not depend on it.) *)
Module Record.

Abbreviation t A := (list (string * A)).

(** [r[k]] *)
Fixpoint lookup {A : Type} (k : string) (r : t A) : option A :=
  match r with
  | [] => None
  | (k', v) :: r' => if String.eqb k' k then Some v else lookup k r'
  end.

(** [r[k] = v]: the value of an existing property is replaced where the
    property stands; a new property is added at the end. *)
Fixpoint assign {A : Type} (k : string) (v : A) (r : t A) : t A :=
  match r with
  | [] => [(k, v)]
  | (k', v') :: r' =>
      if String.eqb k' k then (k, v) :: r' else (k', v') :: assign k v r'
  end.

(** [a || b] on an optional record: [undefined] gives [b]; an object is
    truthy, also when it is empty. *)
Definition or_else {A : Type} (a : option (t A)) (b : t A) : t A :=
  default b a.

(** The members of an object literal, [k: v] and [...o], evaluated from
    left to right. *)
Inductive member (A : Type) : Type :=
  | Property (k : string) (v : A)
  | Spread (o : t A).
Arguments Property {A} k v.
Arguments Spread {A} o.

Definition define {A : Type} (acc : t A) (m : member A) : t A :=
  match m with
  | Property k v => assign k v acc
  | Spread o => foldl (λ acc '(k, v), assign k v acc) acc o
  end.

Definition literal {A : Type} (ms : list (member A)) : t A :=
  foldl define [] ms.

End Record.

End JS.

(** ** Exceptions, the console and asynchronous computations *)

Inductive exn : Type :=
  | Error (message : string)
  | SyntaxError (message : string)
  | TypeError (message : string)
  | RangeError (message : string).

(** A line written by [console.error(label, reason)]. *)
Definition console : Type := list (string * exn).

Inductive outcome (A : Type) : Type :=
  | Fulfilled (x : A)
  | Rejected (e : exn).
Arguments Fulfilled {A} x.
Arguments Rejected {A} e.

(** A computation takes the console as it is and returns the console as it
    leaves it with the outcome. *)
Definition Promise (A : Type) : Type := console → console * outcome A.

Module Async.

Definition resolve {A : Type} (x : A) : Promise A :=
  λ log, (log, Fulfilled x).

(** [await m] followed by [k]. *)
Definition await {A B : Type} (m : Promise A) (k : A → Promise B)
    : Promise B :=
  λ log,
    match m log with
    | (log', Fulfilled x) => k x log'
    | (log', Rejected e) => (log', Rejected e)
    end.

Definition throw {A : Type} (e : exn) : Promise A :=
  λ log, (log, Rejected e).

(** [try { m } catch (e) { handler e }] *)
Definition try_catch {A : Type} (m : Promise A) (handler : exn → Promise A)
    : Promise A :=
  λ log,
    match m log with
    | (log', Fulfilled x) => (log', Fulfilled x)
    | (log', Rejected e) => handler e log'
    end.

Definition console_error (label : string) (reason : exn) : Promise unit :=
  λ log, (log ++ [(label, reason)], Fulfilled tt).

(** A call that returns or throws, inside an [async] function. *)
Definition call {A : Type} (r : exn + A) : Promise A :=
  match r with
  | inr x => resolve x
  | inl e => throw e
  end.

End Async.

Notation "'let*' x ':=' m 'in' k" :=
  (Async.await m (λ x, k))
  (at level 10, x pattern, m at level 200, k at level 200,
   format "'[v' 'let*'  x  ':='  m  'in' '/' k ']'") : stdpp_scope.

(** ** The platform's JSON *)

Module JSON.

(** [stringify] is applied to objects only; [parse] answers [None] where
    [JSON.parse] throws a [SyntaxError]. *)
Class codec : Type := {
  stringify : value → string;
  parse : string → option value
}.

End JSON.

(** ** The platform's Response *)

Module Headers.

Definition lower_ascii (c : ascii) : ascii :=
  let n := nat_of_ascii c in
  if ((65 <=? n) && (n <=? 90))%nat then ascii_of_nat (n + 32) else c.

Fixpoint lower (s : string) : string :=
  match s with
  | EmptyString => EmptyString
  | String c s' => String (lower_ascii c) (lower s')
  end.

Definition code (c : ascii) : nat := nat_of_ascii c.

(** A header name is a token: one character or more, each a letter, a
    digit or one of [!#$%&'*+-.^_`|~]. *)
Definition is_token_char (c : ascii) : bool :=
  let n := code c in
  (((48 <=? n) && (n <=? 57)) || ((65 <=? n) && (n <=? 90)) ||
   ((97 <=? n) && (n <=? 122)) ||
   bool_decide (n ∈ [33; 35; 36; 37; 38; 39; 42; 43; 45; 46; 94; 95; 96;
                     124; 126]))%nat.

Fixpoint all_chars (p : ascii → bool) (s : string) : bool :=
  match s with
  | EmptyString => true
  | String c s' => p c && all_chars p s'
  end.

Definition is_name (s : string) : bool :=
  negb (String.eqb s "") && all_chars is_token_char s.

(** HTTP whitespace: tab, line feed, carriage return and space. *)
Definition is_whitespace (c : ascii) : bool :=
  bool_decide (code c ∈ [9; 10; 13; 32])%nat.

Fixpoint strip_leading (s : string) : string :=
  match s with
  | EmptyString => EmptyString
  | String c s' => if is_whitespace c then strip_leading s' else s
  end.

Fixpoint strip_trailing (s : string) : string :=
  match s with
  | EmptyString => EmptyString
  | String c s' =>
      match strip_trailing s' with
      | EmptyString => if is_whitespace c then EmptyString
                       else String c EmptyString
      | rest => String c rest
      end
  end.

(** A value is normalised before it is stored: the whitespace before and
    after it is removed. *)
Definition normalize (value : string) : string :=
  strip_leading (strip_trailing value).

(** A normalised value is a header value when it has no NUL, line feed or
    carriage return. *)
Definition is_value (s : string) : bool :=
  all_chars (λ c, negb (bool_decide (code c ∈ [0; 10; 13])%nat)) s.

(** A header list: the headers in the order they were appended, each with
    its name as given and its value normalised. *)
Abbreviation t := (list (string * string)).

(** [headers.append(name, value)] *)
Definition append (name value : string) (h : t) : exn + t :=
  let value := normalize value in
  if is_name name && is_value value then inr (h ++ [(name, value)])
  else inl (TypeError "Invalid header name or value").

(** Filling a header list from a record: every property is appended, in
    the order of the record; the first one refused ends it. *)
Fixpoint fill (init : JS.Record.t string) (h : t) : exn + t :=
  match init with
  | [] => inr h
  | (name, value) :: init' =>
      match append name value h with
      | inr h' => fill init' h'
      | inl e => inl e
      end
  end.

(** The header list that [fill] gives when no property is refused. *)
Definition of_record (init : JS.Record.t string) : t :=
  (λ '(name, value), (name, normalize value)) <$> init.

(** The values of the headers whose name is [name] up to case, in order. *)
Definition values (name : string) (h : t) : list string :=
  (filter (λ kv, lower kv.1 = lower name) h).*2.

Definition join (l : list string) : option string :=
  match l with
  | [] => None
  | v :: vs => Some (foldl (λ acc x, acc +:+ ", " +:+ x) v vs)
  end.

(** [headers.get(name)]: the values under the name, up to case, separated
    by a comma and a space; [None] is [null]. *)
Definition get (name : string) (h : t) : option string :=
  join (values name h).

(** [headers.has(name)] *)
Definition has (name : string) (h : t) : bool :=
  bool_decide (values name h ≠ []).

End Headers.

Module Response.

(** What reading the body to its end gives: the text the bytes decode to
    (the empty text for a [null] body), or the failure of the read. *)
Inductive body_source : Type :=
  | BodyText (text : string)
  | BodyFailure (reason : exn).

Record t : Type := {
  status : Z;
  statusText : string;
  headers : Headers.t;
  body : body_source
}.

(** The second argument of [new Response(body, init)]. *)
Record init : Type := {
  init_status : Z;
  init_headers : JS.Record.t string
}.

(** A body given as a string has the type [text/plain]; the constructor
    adds it as the [Content-Type] when the headers have none. *)
Definition with_content_type (h : Headers.t) : Headers.t :=
  if Headers.has "content-type" h then h
  else h ++ [("Content-Type", "text/plain;charset=UTF-8")].

(** The response that [new Response(body, init)] builds from a string
    body once its checks have passed; the reason phrase is empty unless
    [init] gives one. *)
Definition new (body : string) (i : init) : t :=
  {| status := init_status i;
     statusText := "";
     headers := with_content_type (Headers.of_record (init_headers i));
     body := BodyText body |}.

(** The statuses of a response that cannot have a body. *)
Definition null_body_status (status : Z) : bool :=
  bool_decide (status ∈ [101; 103; 204; 205; 304]).

(** [new Response(body, init)] with a string body.  The status is
    converted to an [unsigned short]; a status outside 200..599 is a
    [RangeError]; a header name or value that is refused, and a body given
    with a status that cannot have one, are a [TypeError]. *)
Definition construct (body : string) (i : init) : exn + t :=
  let status := init_status i `mod` 65536 in
  if (status <? 200) || (599 <? status) then
    inl (RangeError "The status provided is outside the range [200, 599]")
  else
    match Headers.fill (init_headers i) [] with
    | inl e => inl e
    | inr h =>
        if null_body_status status then
          inl (TypeError "Response with null body status cannot have body")
        else
          inr {| status := status;
                 statusText := "";
                 headers := with_content_type h;
                 body := BodyText body |}
    end.

(** A response object as its holder has it: the response, whether its
    body was read ([bodyUsed]) and whether a reader holds its stream. *)
Record object : Type := {
  response : t;
  bodyUsed : bool;
  locked : bool
}.

(** A response object whose body nobody has touched. *)
Definition unread (r : t) : object :=
  {| response := r; bodyUsed := false; locked := false |}.

Definition unusable (o : object) : bool := bodyUsed o || locked o.

(** [response.clone()]: a second response that reads the same body; a
    [TypeError] when the body was read or is locked. *)
Definition clone (o : object) : exn + t :=
  if unusable o then inl (TypeError "Body is unusable")
  else inr (response o).

(** [response.text()] *)
Definition text (response : t) : Promise string :=
  match body response with
  | BodyText s => Async.resolve s
  | BodyFailure reason => Async.throw reason
  end.

(** [response.json()]: the text of the body, parsed. *)
Definition json {host : JSON.codec} (response : t) : Promise value :=
  let* s := text response in
  match JSON.parse s with
  | Some v => Async.resolve v
  | None => Async.throw (SyntaxError "Unexpected token in JSON")
  end.

End Response.

(** ** [class HttpError extends Error] *)

Module HttpError.

(** The classes a value can be constructed by; [constructor_name] is
    [this.constructor.name]. *)
Inductive class : Type :=
  | HttpError_class
  | MissingFieldError_class.

Definition constructor_name (c : class) : string :=
  match c with
  | HttpError_class => "HttpError"
  | MissingFieldError_class => "MissingFieldError"
  end.

Record t : Type := {
  status : Z;
  message : string;
  details : option value;
  headers : option (JS.Record.t string);
  name : string
}.

(** The constructor, run for an object of class [c]. *)
Definition construct (c : class) (status : Z) (message : string)
    (details : option value) (headers : option (JS.Record.t string)) : t :=
  {| status := status;
     message := message;
     details := details;
     headers := headers;
     name := constructor_name c |}.

(** [new HttpError(status, message, details, headers)] *)
Definition new : Z → string → option value →
    option (JS.Record.t string) → t :=
  construct HttpError_class.

(** The local [body] of [toResponse]:
    [{ error: this.message, ...(this.details || {}) }] *)
Definition toResponse_body (this : t) : gmap string value :=
  JS.object_literal
    [ JS.Property "error" (VStr (message this));
      JS.Spread (JS.own_properties (JS.or_else (details this) (VObj ∅))) ].

(** The [headers] of the init of [toResponse]:
    [{ 'content-type': 'application/json', ...(this.headers || {}) }] *)
Definition toResponse_headers (this : t) : JS.Record.t string :=
  JS.Record.literal
    [ JS.Record.Property "content-type" "application/json";
      JS.Record.Spread (JS.Record.or_else (headers this) []) ].

(** [toResponse], with the checks of the constructor: it returns the
    response or throws. *)
Definition toResponse_checked {host : JSON.codec} (this : t)
    : exn + Response.t :=
  let body := toResponse_body this in
  Response.construct (JSON.stringify (VObj body))
    {| Response.init_status := status this;
       Response.init_headers := toResponse_headers this |}.

(** The response [toResponse] returns when the constructor accepts its
    arguments. *)
Definition toResponse {host : JSON.codec} (this : t) : Response.t :=
  let body := toResponse_body this in
  Response.new (JSON.stringify (VObj body))
    {| Response.init_status := status this;
       Response.init_headers := toResponse_headers this |}.

(** [fromResponse], on a response object in any state. *)
Definition fromResponse_object {host : JSON.codec}
    (object : Response.object) : Promise t :=
  let response := Response.response object in
  let status := Response.status response in
  if (200 <=? status) && (status <? 300) then
    Async.throw
      (Error ("Cannot create HttpError from a successful response (status: "
              +:+ pretty status +:+ ")"))
  else
    let message :=
      JS.string_or_else (Response.statusText response) "Unknown Error" in
    let details : option value := None in
    let* responseClone := Async.call (Response.clone object) in
    let* (message, details) :=
      Async.try_catch
        (let* body := Response.json response in
         if JS.truthy body && String.eqb (JS.typeof body) "object" then
           let message :=
             if JS.has_property "error" body then
               match JS.get_property "error" body with
               | Some (VStr error) => error
               | _ => message
               end
             else message in
           Async.resolve (message, Some body)
         else Async.resolve (message, details))
        (λ e,
           Async.try_catch
             (let* text := Response.text responseClone in
              if negb (String.eqb text "")
              then Async.resolve (text, details)
              else Async.resolve (message, details))
             (λ textError,
                let* _ :=
                  Async.console_error "Failed to parse response body:"
                    textError in
                Async.resolve (message, details))) in
    Async.resolve (new status message details None).

(** [fromResponse] on a response whose body nobody has touched. *)
Definition fromResponse {host : JSON.codec} (response : Response.t)
    : Promise t :=
  fromResponse_object (Response.unread response).

End HttpError.

(** ** [class MissingFieldError extends HttpError] *)

Module MissingFieldError.

(** [new MissingFieldError(fieldName, headers)]: the constructor of
    [HttpError] run for an object of the subclass. *)
Definition new (fieldName : string)
    (headers : option (JS.Record.t string)) : HttpError.t :=
  HttpError.construct HttpError.MissingFieldError_class
    400 ("Missing required field: " +:+ fieldName)
    (Some (VObj {[ "field" := VStr fieldName ]})) headers.

End MissingFieldError.

(** ** A reference host

    A codec for the JSON documents whose numbers are integers, with the
    quote and the backslash as the only escaped characters: enough to run
    the code on the bodies of [tests/index.test.ts]. *)

Module Reference.

Definition quote : ascii := ascii_of_nat 34.
Definition backslash : ascii := ascii_of_nat 92.

Fixpoint escape (s : string) : string :=
  match s with
  | EmptyString => EmptyString
  | String c s' =>
      if Ascii.eqb c quote || Ascii.eqb c backslash
      then String backslash (String c (escape s'))
      else String c (escape s')
  end.

Definition quoted (s : string) : string :=
  String quote (escape s +:+ String quote EmptyString).

Definition join (sep : string) (l : list string) : string :=
  match l with
  | [] => ""
  | x :: l' => foldl (λ acc y, acc +:+ sep +:+ y) x l'
  end.

(** The properties of an object are written in the order of the map. *)
Fixpoint stringify (v : value) : string :=
  match v with
  | VNull => "null"
  | VBool b => if b then "true" else "false"
  | VNum n => pretty n
  | VStr s => quoted s
  | VArr l => "[" +:+ join "," (stringify <$> l) +:+ "]"
  | VObj o =>
      "{" +:+ join ","
        (map_fold (λ k x acc, acc ++ [quoted k +:+ ":" +:+ stringify x]) [] o)
      +:+ "}"
  end.

Definition is_space (c : ascii) : bool :=
  let n := nat_of_ascii c in
  ((n =? 32) || (n =? 9) || (n =? 10) || (n =? 13))%nat.

Fixpoint skip (s : string) : string :=
  match s with
  | String c s' => if is_space c then skip s' else s
  | EmptyString => EmptyString
  end.

Fixpoint strip (lit s : string) : option string :=
  match lit, s with
  | EmptyString, _ => Some s
  | String a lit', String b s' => if Ascii.eqb a b then strip lit' s' else None
  | String _ _, EmptyString => None
  end.

Definition digit (c : ascii) : option Z :=
  let n := nat_of_ascii c in
  if ((48 <=? n) && (n <=? 57))%nat then Some (Z.of_nat n - 48) else None.

Fixpoint digits (acc : Z) (s : string) : Z * string :=
  match s with
  | String c s' =>
      match digit c with
      | Some d => digits (10 * acc + d) s'
      | None => (acc, s)
      end
  | EmptyString => (acc, s)
  end.

Definition number (s : string) : option (Z * string) :=
  let '(neg, s1) :=
    match s with
    | String c s' => if Ascii.eqb c "-" then (true, s') else (false, s)
    | EmptyString => (false, s)
    end in
  match s1 with
  | String c _ =>
      match digit c with
      | Some _ =>
          let '(n, rest) := digits 0 s1 in
          match rest with
          | String d _ =>
              if Ascii.eqb d "." || Ascii.eqb d "e" || Ascii.eqb d "E"
              then None
              else Some (if neg then - n else n, rest)
          | EmptyString => Some (if neg then - n else n, rest)
          end
      | None => None
      end
  | EmptyString => None
  end.

(** The characters after an opening quote, up to the closing one. *)
Fixpoint string_tail (s : string) : option (string * string) :=
  match s with
  | EmptyString => None
  | String c s' =>
      if Ascii.eqb c quote then Some (EmptyString, s')
      else if Ascii.eqb c backslash then
        match s' with
        | String e s'' =>
            if Ascii.eqb e quote || Ascii.eqb e backslash || Ascii.eqb e "/"
            then '(str, rest) ← string_tail s''; Some (String e str, rest)
            else None
        | EmptyString => None
        end
      else '(str, rest) ← string_tail s'; Some (String c str, rest)
  end.

(** A value, the elements of an array after its first bracket and the
    members of an object after its first brace; each returns what it read
    with the rest of the text.  The fuel bounds the depth of the calls. *)
Fixpoint value_of (fuel : nat) (s : string) : option (value * string) :=
  match fuel with
  | O => None
  | S fuel' =>
      match skip s with
      | EmptyString => None
      | String c s' =>
          if Ascii.eqb c "{" then
            match skip s' with
            | String d rest =>
                if Ascii.eqb d "}" then Some (VObj ∅, rest)
                else members fuel' ∅ s'
            | EmptyString => None
            end
          else if Ascii.eqb c "[" then
            match skip s' with
            | String d rest =>
                if Ascii.eqb d "]" then Some (VArr [], rest)
                else elements fuel' [] s'
            | EmptyString => None
            end
          else if Ascii.eqb c quote then
            '(str, rest) ← string_tail s'; Some (VStr str, rest)
          else if Ascii.eqb c "n" then rest ← strip "ull" s'; Some (VNull, rest)
          else if Ascii.eqb c "t" then rest ← strip "rue" s'; Some (VBool true, rest)
          else if Ascii.eqb c "f" then rest ← strip "alse" s'; Some (VBool false, rest)
          else '(n, rest) ← number (String c s'); Some (VNum n, rest)
      end
  end
with elements (fuel : nat) (acc : list value) (s : string)
    : option (value * string) :=
  match fuel with
  | O => None
  | S fuel' =>
      '(v, rest) ← value_of fuel' s;
      match skip rest with
      | String c rest' =>
          if Ascii.eqb c "," then elements fuel' (acc ++ [v]) rest'
          else if Ascii.eqb c "]" then Some (VArr (acc ++ [v]), rest')
          else None
      | EmptyString => None
      end
  end
with members (fuel : nat) (acc : gmap string value) (s : string)
    : option (value * string) :=
  match fuel with
  | O => None
  | S fuel' =>
      match skip s with
      | String q s1 =>
          if Ascii.eqb q quote then
            '(k, s2) ← string_tail s1;
            match skip s2 with
            | String c s3 =>
                if Ascii.eqb c ":" then
                  '(v, rest) ← value_of fuel' s3;
                  match skip rest with
                  | String d rest' =>
                      if Ascii.eqb d "," then members fuel' (<[k := v]> acc) rest'
                      else if Ascii.eqb d "}" then Some (VObj (<[k := v]> acc), rest')
                      else None
                  | EmptyString => None
                  end
                else None
            | EmptyString => None
            end
          else None
      | EmptyString => None
      end
  end.

Definition parse (s : string) : option value :=
  '(v, rest) ← value_of (S (String.length s)) s;
  match skip rest with
  | EmptyString => Some v
  | String _ _ => None
  end.

Definition codec : JSON.codec :=
  {| JSON.stringify := stringify; JSON.parse := parse |}.

End Reference.

(** ** Definitions used to state the properties *)

(** The message [fromResponse] starts from: the reason phrase, or
    "Unknown Error" when the phrase is empty. *)
Definition reason_phrase_or_unknown (response : Response.t) : string :=
  if decide (Response.statusText response = "") then "Unknown Error"
  else Response.statusText response.

(** Two header names are the same header when they differ in case only;
    [k] is alone in [m] when no other name of [m] is the same header. *)
Definition alone_up_to_case (k : string) (m : JS.Record.t string) : Prop :=
  ∀ k', k' ∈ m.*1 → Headers.lower k' = Headers.lower k → k' = k.

(** The statuses the constructor of [Response] accepts with a body:
    200..599, without the statuses 204, 205 and 304 that cannot have one. *)
Definition accepted_status (status : Z) : Prop :=
  200 ≤ status ≤ 599 ∧ status ≠ 204 ∧ status ≠ 205 ∧ status ≠ 304.

(** The properties the constructor of [Response] accepts as headers: the
    name is a token and the value, normalised, is a header value. *)
Definition accepted_headers (m : JS.Record.t string) : Prop :=
  Forall (λ kv, Headers.is_name kv.1 &&
                Headers.is_value (Headers.normalize kv.2) = true) m.

(** ** Sample inputs, after [tests/index.test.ts] *)

Module Sample.

Definition received (status : Z) (statusText : string)
    (body : Response.body_source) : Response.t :=
  {| Response.status := status;
     Response.statusText := statusText;
     Response.headers := [];
     Response.body := body |}.

Definition bad_request_body : gmap string value :=
  {[ "error" := VStr "Bad request"; "field" := VStr "email" ]}.

Definition ok_response : Response.t :=
  received 200 ""
    (Response.BodyText (Reference.stringify (VObj {[ "ok" := VBool true ]}))).

Definition json_error_response : Response.t :=
  received 400 ""
    (Response.BodyText (Reference.stringify (VObj bad_request_body))).

Definition text_response : Response.t :=
  received 500 "" (Response.BodyText "Something went wrong").

Definition not_found_response : Response.t :=
  received 404 "Not Found" (Response.BodyText "").

Definition not_modified_response : Response.t :=
  received 304 "Not Modified" (Response.BodyText "").

Definition array_response : Response.t :=
  received 500 "" (Response.BodyText "[1,2]").

Definition null_response : Response.t :=
  received 500 "Internal Server Error" (Response.BodyText "null").

Definition broken_response : Response.t :=
  received 502 "Bad Gateway"
    (Response.BodyFailure (TypeError "network error")).

Definition unauthorized : HttpError.t :=
  HttpError.new 401 "Unauthorized"
    (Some (VObj {[ "code" := VStr "AUTH_FAILED"; "retry" := VBool false ]}))
    None.

Definition shadowed : HttpError.t :=
  HttpError.new 400 "Bad request"
    (Some (VObj {[ "error" := VStr "from details"; "field" := VStr "email" ]}))
    None.

Definition plain_text : HttpError.t :=
  HttpError.new 400 "Bad request" (Some VNull)
    (Some [("content-type", "text/plain")]).

End Sample.

(** The operations on the reference host. *)
Abbreviation fromResponse_ref :=
  (HttpError.fromResponse (host := Reference.codec)).
Abbreviation toResponse_ref :=
  (HttpError.toResponse (host := Reference.codec)).

(** ** Further inputs *)

Module Scenario.

(** A value whose details are an array, as [fromResponse] returns it for
    a body that parses to an array. *)
Definition listed : HttpError.t :=
  HttpError.new 500 "Unknown Error" (Some (VArr [VNum 1; VNum 2])) None.

(** Details whose [error] is not a string. *)
Definition coded : HttpError.t :=
  HttpError.new 409 "Conflict"
    (Some (VObj {[ "error" := VNum 7; "resource" := VStr "user" ]})) None.

(** A value with a status of the success range. *)
Definition created : HttpError.t :=
  HttpError.new 201 "Created" None None.

Definition session_expired : HttpError.t :=
  HttpError.new 401 "Session expired" (Some VNull)
    (Some [("Set-Cookie", "session_id=; Max-Age=0; Path=/")]).

Definition unprocessable_body : gmap string value :=
  {[ "code" := VStr "INVALID"; "details" := VStr "foo" ]}.

Definition unprocessable_response : Response.t :=
  Sample.received 422 "Unprocessable Entity"
    (Response.BodyText (Reference.stringify (VObj unprocessable_body))).

Definition empty_error_body : gmap string value :=
  {[ "error" := VStr "" ]}.

Definition empty_error_response : Response.t :=
  Sample.received 400 "Bad Request"
    (Response.BodyText (Reference.stringify (VObj empty_error_body))).

(** The response 404 after its body was read. *)
Definition consumed_not_found : Response.object :=
  {| Response.response := Sample.not_found_response;
     Response.bodyUsed := true;
     Response.locked := false |}.



(** A status that cannot have a body. *)
Definition no_content : HttpError.t :=
  HttpError.new 204 "No Content" None None.

(** A header value with whitespace around it. *)
Definition padded : HttpError.t :=
  HttpError.new 400 "Bad request" None (Some [("X-Trace", "  abc ")]).

End Scenario.

Abbreviation toResponse_checked_ref :=
  (HttpError.toResponse_checked (host := Reference.codec)).
Abbreviation fromResponse_object_ref :=
  (HttpError.fromResponse_object (host := Reference.codec)).

(** * Properties *)

(** ** The operators *)

Lemma string_or_else_spec (a b : string) :
  JS.string_or_else a b = if decide (a = "") then b else a.
Proof.
  unfold JS.string_or_else.
  destruct (String.eqb_spec a ""); case_decide; congruence.
Qed.

Lemma object_guard_spec (body : value) :
  JS.truthy body && String.eqb (JS.typeof body) "object" = true ↔
  (∃ l, body = VArr l) ∨ (∃ o, body = VObj o).
Proof.
  split.
  - destruct body; simpl; rewrite ?andb_false_r; try discriminate; eauto.
  - by intros [[l ->] | [o ->]].
Qed.

(** An object literal that spreads [o] after the property [k]: the entries
    of [o] stand, and [k] holds [v] only where [o] has no [k]. *)
Lemma lookup_literal_spread {A : Type} (k : string) (v : A)
    (o : gmap string A) (j : string) :
  JS.object_literal [JS.Property k v; JS.Spread o] !! j =
  match o !! j with
  | Some x => Some x
  | None => if decide (j = k) then Some v else None
  end.
Proof.
  unfold JS.object_literal; simpl.
  rewrite lookup_union.
  destruct (o !! j) as [x|] eqn:Hj.
  - by destruct (<[k:=v]> (∅ : gmap string A) !! j).
  - rewrite (left_id None _).
    case_decide as Hjk; [subst j; apply lookup_insert_eq|].
    by rewrite lookup_insert_ne, lookup_empty.
Qed.

(** The decimal name of an index is not the name [error]. *)
Lemma pretty_N_go_ne_e (x : N) (s s' : string) :
  s ≠ "e" +:+ s' → pretty_N_go x s ≠ "e" +:+ s'.
Proof.
  revert s. induction (N.lt_wf_0 x) as [x _ IH]; intros s Hs.
  assert (x = 0 ∨ 0 < x)%N as [->|Hpos] by lia.
  - by rewrite pretty_N_go_0.
  - rewrite pretty_N_go_step by done. apply IH.
    + by apply N.div_lt.
    + unfold pretty_N_char. by repeat case_match.
Qed.

Lemma pretty_nat_ne_error (i : nat) : pretty i ≠ "error".
Proof.
  unfold pretty, pretty_nat, pretty, pretty_N.
  case_decide; [done|].
  by apply (pretty_N_go_ne_e _ "" "rror").
Qed.

Lemma lookup_named_None {A : Type} (f : nat → string) (k : string)
    (l : list A) :
  (∀ i, f i ≠ k) →
  (list_to_map (imap (λ i x, (f i, x)) l) : gmap string A) !! k = None.
Proof.
  revert f. induction l as [|x l IH]; intros f Hf; simpl; [done|].
  rewrite lookup_insert_ne by apply Hf.
  apply (IH (f ∘ S)). intros i. apply Hf.
Qed.

Lemma indexed_error_None {A : Type} (l : list A) :
  JS.indexed l !! "error" = None.
Proof. apply lookup_named_None, pretty_nat_ne_error. Qed.

Section Deserialize.

Context {host : JSON.codec}.

  (** What [fromResponse] computes for a status outside [200, 300), by the
      way the body reads. *)
Lemma fromResponse_unfold (response : Response.t) (log : console) :
  ¬ (200 ≤ Response.status response < 300) →
  HttpError.fromResponse response log =
  let status := Response.status response in
  let fallback := reason_phrase_or_unknown response in
  match Response.body response with
  | Response.BodyFailure reason =>
      (log ++ [("Failed to parse response body:", reason)],
       Fulfilled (HttpError.new status fallback None None))
  | Response.BodyText s =>
      match JSON.parse s with
      | None =>
          (log, Fulfilled (HttpError.new status
                             (if decide (s = "") then fallback else s)
                             None None))
      | Some body =>
          match body with
          | VObj o =>
              (log, Fulfilled (HttpError.new status
                                 match o !! "error" with
                                 | Some (VStr m) => m
                                 | _ => fallback
                                 end
                                 (Some body) None))
          | VArr _ =>
              (log, Fulfilled (HttpError.new status fallback
                                 (Some body) None))
          | _ =>
              (log, Fulfilled (HttpError.new status fallback None None))
          end
      end
  end.
Proof.
  intros Hstatus.
  unfold HttpError.fromResponse, HttpError.fromResponse_object.
  cbn [Response.response Response.unread].
  destruct ((200 <=? Response.status response) &&
            (Response.status response <? 300)) eqn:Hguard.
  { apply andb_true_iff in Hguard as [?%Z.leb_le ?%Z.ltb_lt]. lia. }
  unfold reason_phrase_or_unknown.
  rewrite string_or_else_spec.
  unfold Async.await, Async.try_catch, Response.json, Response.text,
    Async.call, Response.clone, Async.await, Async.console_error,
    Async.throw, Async.resolve.
  cbn [Response.unusable Response.unread Response.bodyUsed Response.locked
       Response.response orb].
  destruct (Response.body response) as [s|reason]; simpl; [|done].
  destruct (JSON.parse s) as [body|] eqn:Hparse; simpl.
  - destruct body as [| b | n | str | l | o]; simpl;
      rewrite ?andb_false_r; simpl; try done.
    + unfold JS.has_property, JS.get_property; simpl.
      by rewrite indexed_error_None.
    + unfold JS.has_property, JS.get_property; simpl.
      case_bool_decide as Herr.
      * destruct Herr as [x Hx]. rewrite Hx. by destruct x.
      * apply eq_None_not_Some in Herr. by rewrite Herr.
  - destruct (String.eqb_spec s ""); repeat case_decide; simpl; congruence.
Qed.

(** On a status in [200, 300) the call is rejected before the body is
    looked at. *)
Lemma fromResponse_success_status (response : Response.t) (log : console) :
  200 ≤ Response.status response < 300 →
  HttpError.fromResponse response log =
  (log,
   Rejected
     (Error ("Cannot create HttpError from a successful response (status: "
             +:+ pretty (Response.status response) +:+ ")"))).
Proof.
  intros [Hlo Hhi].
  unfold HttpError.fromResponse, HttpError.fromResponse_object.
  cbn [Response.response Response.unread].
  apply Z.leb_le in Hlo. apply Z.ltb_lt in Hhi.
  by rewrite Hlo, Hhi.
Qed.

(** On any other status the call is fulfilled, however the body reads. *)
Lemma fromResponse_fulfilled (response : Response.t) (log : console) :
  ¬ (200 ≤ Response.status response < 300) →
  ∃ log' message details,
    HttpError.fromResponse response log =
    (log',
     Fulfilled
       (HttpError.new (Response.status response) message details None)).
Proof.
  intros Hstatus. rewrite fromResponse_unfold by done. simpl.
  destruct (Response.body response) as [s|reason]; [|by eauto].
  destruct (JSON.parse s) as [[| b | n | str | l | o]|]; by eauto.
Qed.

(** [fromResponse] on a response object: the check of the status comes
    first, then [clone], which throws when the body is unusable; an object
    past both is read as an untouched response is. *)
Lemma fromResponse_object_unfold (object : Response.object) (log : console) :
  HttpError.fromResponse_object object log =
  let status := Response.status (Response.response object) in
  if decide (200 ≤ status < 300) then
    (log,
     Rejected
       (Error ("Cannot create HttpError from a successful response (status: "
               +:+ pretty status +:+ ")")))
  else if Response.unusable object then
    (log, Rejected (TypeError "Body is unusable"))
  else HttpError.fromResponse (Response.response object) log.
Proof.
  cbv zeta. unfold HttpError.fromResponse, HttpError.fromResponse_object.
  cbn [Response.response Response.unread].
  destruct ((200 <=? Response.status (Response.response object)) &&
            (Response.status (Response.response object) <? 300)) eqn:Hguard.
  - apply andb_true_iff in Hguard as [?%Z.leb_le ?%Z.ltb_lt].
    by rewrite decide_True by lia.
  - rewrite decide_False.
    2:{ apply andb_false_iff in Hguard as [?%Z.leb_gt|?%Z.ltb_ge]; lia. }
    unfold Async.await at 1. unfold Async.await at 2.
    unfold Async.call, Response.clone.
    by destruct (Response.unusable object).
Qed.

(** C3, as the code has it.  [fromResponse] fails on a status in
    [200, 300), with an [Error] whose message ends with the status, and it
    fails on a response whose body was already read or is locked, where
    [response.clone()] throws a [TypeError] outside the [try]: for a
    response whose body nobody has touched, it fails exactly on a status in
    [200, 300), and on every other status it is fulfilled with an
    [HttpError], whatever the body is and however it reads. *)
Theorem fromResponse_object_rejected_iff
    (object : Response.object) (log : console) :
  let status := Response.status (Response.response object) in
  (Response.unusable object = false →
   ((∃ log' e,
       HttpError.fromResponse_object object log = (log', Rejected e)) ↔
    200 ≤ status < 300)) ∧
  (200 ≤ status < 300 →
   HttpError.fromResponse_object object log =
   (log,
    Rejected
      (Error ("Cannot create HttpError from a successful response (status: "
              +:+ pretty status +:+ ")")))) ∧
  (¬ (200 ≤ status < 300) → Response.unusable object = false →
   ∃ log' e,
     HttpError.fromResponse_object object log = (log', Fulfilled e)) ∧
  (¬ (200 ≤ status < 300) → Response.unusable object = true →
   ∃ msg,
     HttpError.fromResponse_object object log =
     (log, Rejected (TypeError msg))).
Proof.
  cbv zeta. rewrite fromResponse_object_unfold. cbv zeta.
  destruct (decide (200 ≤ Response.status (Response.response object) < 300))
    as [Hin|Hout].
  - split; [|split; [done|split; done]].
    intros _. split; [done|]. by eauto.
  - destruct (fromResponse_fulfilled (Response.response object) log Hout)
      as (log' & message & details & Hful).
    split; [|split; [done|split]].
    + intros ->. split; [|done].
      intros (log'' & e & Hrej). congruence.
    + intros _ ->. by eauto.
    + intros _ ->. by eauto.
Qed.

(** C9. For a status outside [200, 300), whatever it is (0, a negative
    number, 1xx, 3xx, ...), [fromResponse] returns a value whose status is
    the status of the response and that has no headers. *)
Theorem fromResponse_status_and_no_headers
    (response : Response.t) (log : console) :
  ¬ (200 ≤ Response.status response < 300) →
  ∃ log' e,
    HttpError.fromResponse response log = (log', Fulfilled e) ∧
    HttpError.status e = Response.status response ∧
    HttpError.headers e = None.
Proof.
  intros Hstatus.
  destruct (fromResponse_fulfilled response log Hstatus)
    as (log' & message & details & Hful).
  eexists _, _. split; [exact Hful|]. done.
Qed.

(** C5. For a status outside [200, 300) and a body that parses to a JSON
    object, the message is the value of the key [error] when that value is
    a string, and the reason phrase or "Unknown Error" otherwise; the
    details are the parsed object as it is, the key [error] included. *)
Theorem fromResponse_json_object
    (response : Response.t) (s : string) (o : gmap string value)
    (log : console) :
  ¬ (200 ≤ Response.status response < 300) →
  Response.body response = Response.BodyText s →
  JSON.parse s = Some (VObj o) →
  HttpError.fromResponse response log =
  (log,
   Fulfilled
     (HttpError.new (Response.status response)
        match o !! "error" with
        | Some (VStr m) => m
        | _ => reason_phrase_or_unknown response
        end
        (Some (VObj o)) None)).
Proof.
  intros Hstatus Hbody Hparse.
  rewrite fromResponse_unfold by done. simpl.
  by rewrite Hbody, Hparse.
Qed.

(** C6. For a status outside [200, 300) and a body that does not parse as
    JSON, the text of the body is the message when it is not empty; when it
    is empty, or when the body cannot be read, the message is the reason
    phrase or "Unknown Error".  The failure of the read is written to the
    console and not raised; a value without details is returned in all
    three cases. *)
Theorem fromResponse_not_json (response : Response.t) (log : console) :
  ¬ (200 ≤ Response.status response < 300) →
  (∀ s,
     Response.body response = Response.BodyText s →
     JSON.parse s = None →
     HttpError.fromResponse response log =
     (log,
      Fulfilled
        (HttpError.new (Response.status response)
           (if decide (s = "") then reason_phrase_or_unknown response else s)
           None None))) ∧
  (∀ reason,
     Response.body response = Response.BodyFailure reason →
     HttpError.fromResponse response log =
     (log ++ [("Failed to parse response body:", reason)],
      Fulfilled
        (HttpError.new (Response.status response)
           (reason_phrase_or_unknown response) None None))).
Proof.
  intros Hstatus. split.
  - intros s Hbody Hparse.
    rewrite fromResponse_unfold by done. simpl.
    by rewrite Hbody, Hparse.
  - intros reason Hbody.
    rewrite fromResponse_unfold by done. simpl.
    by rewrite Hbody.
Qed.

(** A body that parses to [null], a boolean, a number or a string leaves
    the details absent and the message at the reason phrase or
    "Unknown Error". *)
Lemma fromResponse_json_scalar
    (response : Response.t) (s : string) (body : value) (log : console) :
  ¬ (200 ≤ Response.status response < 300) →
  Response.body response = Response.BodyText s →
  JSON.parse s = Some body →
  (∀ l, body ≠ VArr l) → (∀ o, body ≠ VObj o) →
  HttpError.fromResponse response log =
  (log,
   Fulfilled
     (HttpError.new (Response.status response)
        (reason_phrase_or_unknown response) None None)).
Proof.
  intros Hstatus Hbody Hparse Harr Hobj.
  rewrite fromResponse_unfold by done. simpl.
  rewrite Hbody, Hparse.
  destruct body as [| b | n | str | l | o]; try done.
  - by destruct (Harr l).
  - by destruct (Hobj o).
Qed.

(** A body that parses to an array passes the guard
    [body && typeof body === 'object']: the array becomes the details. *)
Lemma fromResponse_json_array
    (response : Response.t) (s : string) (l : list value) (log : console) :
  ¬ (200 ≤ Response.status response < 300) →
  Response.body response = Response.BodyText s →
  JSON.parse s = Some (VArr l) →
  HttpError.fromResponse response log =
  (log,
   Fulfilled
     (HttpError.new (Response.status response)
        (reason_phrase_or_unknown response) (Some (VArr l)) None)).
Proof.
  intros Hstatus Hbody Hparse.
  rewrite fromResponse_unfold by done. simpl.
  by rewrite Hbody, Hparse.
Qed.

End Deserialize.

(** ** Records and header lists *)

Lemma assign_fresh {A : Type} (k : string) (v : A) (r : JS.Record.t A) :
  k ∉ r.*1 → JS.Record.assign k v r = r ++ [(k, v)].
Proof.
  induction r as [|[k' v'] r IH]; simpl; [done|].
  intros Hk. apply not_elem_of_cons in Hk as [Hne Hk].
  destruct (String.eqb_spec k' k); [congruence|].
  by rewrite IH.
Qed.

Lemma assign_Forall {A : Type} (P : string * A → Prop) (k : string) (v : A)
    (r : JS.Record.t A) :
  P (k, v) → Forall P r → Forall P (JS.Record.assign k v r).
Proof.
  intros Hkv. induction 1 as [|[k' v'] r Hx Hr IH]; simpl.
  - by constructor.
  - destruct (String.eqb k' k); by constructor.
Qed.

(** Spreading a record after a first property: the first property stays
    first, with the value the record gives its name if it gives one, and
    the other properties of the record follow in their order. *)
Lemma spread_after_first {A : Type} (c : string) (x : A)
    (done h : JS.Record.t A) :
  NoDup h.*1 → c ∉ done.*1 → (∀ k, k ∈ done.*1 → k ∉ h.*1) →
  foldl (λ acc '(k, v), JS.Record.assign k v acc) ((c, x) :: done) h =
  (c, default x (JS.Record.lookup c h)) :: done ++
  filter (λ kv, kv.1 ≠ c) h.
Proof.
  revert x done. induction h as [|[k v] h IH]; intros x done Hnd Hc Hdis.
  { simpl. by rewrite app_nil_r. }
  simpl in Hnd. apply NoDup_cons in Hnd as [Hk Hnd].
  cbn [foldl JS.Record.assign JS.Record.lookup].
  rewrite String.eqb_sym.
  destruct (String.eqb_spec k c) as [->|Hne].
  - rewrite IH; [|done|done|].
    + rewrite filter_cons_False by (simpl; tauto).
      assert (JS.Record.lookup c h = None) as ->; [|done].
      clear -Hk. induction h as [|[k' v'] h IH]; simpl; [done|].
      simpl in Hk. apply not_elem_of_cons in Hk as [Hne Hk].
      destruct (String.eqb_spec k' c); [congruence|by apply IH].
    + intros k Hkd Hkh. apply (Hdis k Hkd). simpl. by right.
  - rewrite assign_fresh.
    2:{ intros Hin. apply (Hdis k Hin). simpl. by left. }
    rewrite (IH x (done ++ [(k, v)])); [|done| |].
    + rewrite filter_cons_True by done.
      by rewrite <-app_assoc.
    + rewrite fmap_app. simpl. intros Hin.
      apply elem_of_app in Hin as [Hin|Hin]; [done|].
      apply list_elem_of_singleton in Hin. congruence.
    + intros k'. rewrite fmap_app. simpl. intros Hin Hkh.
      apply elem_of_app in Hin as [Hin|Hin].
      * apply (Hdis k' Hin). simpl. by right.
      * apply list_elem_of_singleton in Hin. by subst k'.
Qed.

(** The record that [toResponse] gives as headers: [content-type] first,
    with the value of the headers of the value when they have that name
    and [application/json] otherwise, then the other headers of the value
    in their order. *)
Lemma toResponse_headers_eq (e : HttpError.t) :
  NoDup (default [] (HttpError.headers e)).*1 →
  HttpError.toResponse_headers e =
  ("content-type",
   default "application/json"
     (JS.Record.lookup "content-type" (default [] (HttpError.headers e)))) ::
  filter (λ kv, kv.1 ≠ "content-type") (default [] (HttpError.headers e)).
Proof.
  intros Hnd. unfold HttpError.toResponse_headers, JS.Record.literal,
    JS.Record.or_else.
  cbn [foldl JS.Record.define JS.Record.assign].
  rewrite (spread_after_first "content-type" _ []); [done|done|..].
  - apply not_elem_of_nil.
  - intros k Hk. by apply elem_of_nil in Hk.
Qed.

Lemma toResponse_headers_accepted (e : HttpError.t) :
  accepted_headers (default [] (HttpError.headers e)) →
  accepted_headers (HttpError.toResponse_headers e).
Proof.
  unfold accepted_headers, HttpError.toResponse_headers,
    JS.Record.literal, JS.Record.or_else.
  cbn [foldl JS.Record.define JS.Record.assign].
  generalize (default [] (HttpError.headers e)).
  assert (Forall (λ kv, Headers.is_name kv.1 &&
                        Headers.is_value (Headers.normalize kv.2) = true)
            [("content-type", "application/json")]) as Hbase.
  { constructor; [reflexivity|constructor]. }
  revert Hbase. generalize [("content-type", "application/json")].
  intros acc Hacc h Hh. revert acc Hacc.
  induction Hh as [|[k v] h Hkv Hh IH]; intros acc Hacc; simpl; [done|].
  apply IH. by apply assign_Forall.
Qed.

Lemma toResponse_headers_first (e : HttpError.t) :
  ∃ v rest, HttpError.toResponse_headers e = ("content-type", v) :: rest.
Proof.
  unfold HttpError.toResponse_headers, JS.Record.literal,
    JS.Record.or_else.
  cbn [foldl JS.Record.define JS.Record.assign].
  generalize (default [] (HttpError.headers e)).
  generalize "application/json". generalize (@nil (string * string)).
  intros rest v h. revert rest v.
  induction h as [|[k x] h IH]; intros rest v; [simpl; by eauto|].
  cbn [foldl JS.Record.assign].
  destruct (String.eqb_spec "content-type" k) as [<-|Hne]; apply IH.
Qed.

(** [fill] appends the normalised properties when all are accepted, and
    throws a [TypeError] otherwise. *)
Lemma fill_accepted (m : JS.Record.t string) (h : Headers.t) :
  accepted_headers m → Headers.fill m h = inr (h ++ Headers.of_record m).
Proof.
  intros Hm. revert h.
  induction Hm as [|[k v] m Hkv Hm IH]; intros h; simpl.
  { by rewrite app_nil_r. }
  unfold Headers.append. simpl in Hkv. rewrite Hkv.
  rewrite IH. by rewrite <-app_assoc.
Qed.

Lemma fill_refused (m : JS.Record.t string) (h : Headers.t) :
  ¬ accepted_headers m → ∃ msg, Headers.fill m h = inl (TypeError msg).
Proof.
  revert h. induction m as [|[k v] m IH]; intros h Hm; simpl.
  { destruct Hm. constructor. }
  unfold Headers.append.
  destruct (Headers.is_name k && Headers.is_value (Headers.normalize v))
    eqn:Hkv; [|by eauto].
  apply IH. intros Hacc. apply Hm. by constructor.
Qed.

Lemma values_cons (name k v : string) (h : Headers.t) :
  Headers.values name ((k, v) :: h) =
  if decide (Headers.lower k = Headers.lower name)
  then v :: Headers.values name h else Headers.values name h.
Proof.
  unfold Headers.values. case_decide.
  - by rewrite filter_cons_True.
  - by rewrite filter_cons_False.
Qed.

(** The values under a name, in a header list made from a record. *)
Lemma values_of_record (name : string) (m : JS.Record.t string) :
  Headers.values name (Headers.of_record m) =
  Headers.normalize <$>
    (filter (λ kv, Headers.lower kv.1 = Headers.lower name) m).*2.
Proof.
  induction m as [|[k v] m IH]; [done|].
  unfold Headers.of_record. rewrite fmap_cons. fold (Headers.of_record m).
  rewrite values_cons, IH.
  case_decide.
  - by rewrite filter_cons_True.
  - by rewrite filter_cons_False.
Qed.

(** A name that is alone up to case has the one value of its property. *)
Lemma values_alone (k v : string) (m : JS.Record.t string) :
  NoDup m.*1 → (k, v) ∈ m → alone_up_to_case k m →
  (filter (λ kv, Headers.lower kv.1 = Headers.lower k) m).*2 = [v].
Proof.
  induction m as [|[k' v'] m IH]; intros Hnd Hin Halone.
  { by apply elem_of_nil in Hin. }
  simpl in Hnd. apply NoDup_cons in Hnd as [Hk' Hnd].
  assert (∀ j, j ∈ m.*1 → Headers.lower j = Headers.lower k → j = k)
    as Hrest.
  { intros j Hj. apply Halone. simpl. by right. }
  apply elem_of_cons in Hin as [[= <- <-]|Hin].
  - rewrite filter_cons_True by done. simpl. f_equal.
    assert (filter (λ kv, Headers.lower kv.1 = Headers.lower k) m = [])
      as ->; [|done].
    apply elem_of_nil_inv. intros [j x] [Hlow Hjx]%list_elem_of_filter.
    simpl in Hlow. apply Hk'.
    assert (j = k) as <-.
    { apply Hrest; [|done]. apply list_elem_of_fmap. by exists (j, x). }
    apply list_elem_of_fmap. by exists (j, x).
  - assert (k' ≠ k) as Hne.
    { intros ->. apply Hk'. apply list_elem_of_fmap. by exists (k, v). }
    rewrite filter_cons_False.
    + by apply IH.
    + simpl. intros Hlow. apply Hne, Halone; [|done]. simpl. by left.
Qed.

(** [get] does not see the case of the name it is asked for. *)
Lemma values_lower (a b : string) (h : Headers.t) :
  Headers.lower a = Headers.lower b → Headers.values a h = Headers.values b h.
Proof. unfold Headers.values. by intros ->. Qed.

(** ** The constructor of [Response] *)

Lemma null_body_status_accepted (status : Z) :
  accepted_status status → Response.null_body_status status = false.
Proof.
  intros (Hrange & H204 & H205 & H304).
  unfold Response.null_body_status. apply bool_decide_eq_false.
  rewrite !elem_of_cons, elem_of_nil. lia.
Qed.

(** The constructor returns the response when it accepts the status and
    the headers. *)
Lemma construct_accepted (body : string) (i : Response.init) :
  accepted_status (Response.init_status i) →
  accepted_headers (Response.init_headers i) →
  Response.construct body i = inr (Response.new body i).
Proof.
  intros Hstatus Hheaders.
  pose proof (null_body_status_accepted _ Hstatus) as Hnull.
  destruct Hstatus as (Hrange & _).
  unfold Response.construct, Response.new.
  rewrite Z.mod_small by lia.
  rewrite (proj2 (Z.ltb_ge _ _)) by lia.
  rewrite (proj2 (Z.ltb_ge _ _)) by lia.
  cbn [orb].
  rewrite fill_accepted by done.
  by rewrite Hnull.
Qed.

(** It throws a [RangeError] for a status outside 200..599. *)
Lemma construct_out_of_range (body : string) (i : Response.init) :
  ¬ (200 ≤ Response.init_status i `mod` 65536 ≤ 599) →
  Response.construct body i =
  inl (RangeError "The status provided is outside the range [200, 599]").
Proof.
  intros Hrange. unfold Response.construct.
  destruct (Response.init_status i `mod` 65536 <? 200) eqn:Hlo; [done|].
  destruct (599 <? Response.init_status i `mod` 65536) eqn:Hhi; [done|].
  apply Z.ltb_ge in Hlo. apply Z.ltb_ge in Hhi. lia.
Qed.

(** It throws a [TypeError] for the statuses 204, 205 and 304. *)
Lemma construct_null_body_status (body : string) (i : Response.init) :
  Response.init_status i ∈ [204; 205; 304] →
  ∃ msg, Response.construct body i = inl (TypeError msg).
Proof.
  intros Hstatus. unfold Response.construct.
  assert (Response.init_status i `mod` 65536 = Response.init_status i)
    as Hmod.
  { rewrite !elem_of_cons, elem_of_nil in Hstatus.
    apply Z.mod_small. lia. }
  rewrite Hmod.
  assert (Response.null_body_status (Response.init_status i) = true)
    as Hnull.
  { apply bool_decide_eq_true.
    rewrite !elem_of_cons, elem_of_nil in Hstatus.
    rewrite !elem_of_cons. lia. }
  assert ((Response.init_status i <? 200) || (599 <? Response.init_status i)
          = false) as ->.
  { rewrite !elem_of_cons, elem_of_nil in Hstatus.
    apply orb_false_iff. split; apply Z.ltb_ge; lia. }
  destruct (decide (accepted_headers (Response.init_headers i)))
    as [Hacc|Hrefused].
  - rewrite fill_accepted by done. rewrite Hnull. by eauto.
  - destruct (fill_refused _ [] Hrefused) as [msg ->]. by eauto.
Qed.
Section Serialize.

Context {host : JSON.codec}.

(** The object [toResponse] serialises, by the form of the details. *)
Lemma toResponse_body_object (e : HttpError.t) (o : gmap string value) :
  HttpError.details e = Some (VObj o) →
  HttpError.toResponse_body e = o ∪ {[ "error" := VStr (HttpError.message e) ]}.
Proof.
  intros Hdetails. unfold HttpError.toResponse_body.
  by rewrite Hdetails.
Qed.


(** The response [toResponse] returns when the constructor accepts the
    status and the headers. *)
Lemma toResponse_checked_accepted (e : HttpError.t) :
  accepted_status (HttpError.status e) →
  accepted_headers (default [] (HttpError.headers e)) →
  HttpError.toResponse_checked e = inr (HttpError.toResponse e).
Proof.
  intros Hstatus Hheaders.
  apply construct_accepted; [done|].
  by apply toResponse_headers_accepted.
Qed.

(** Its header list is made from the record [toResponse] gives: the
    constructor has no [Content-Type] to add. *)
Lemma toResponse_headers_sent (e : HttpError.t) :
  Response.headers (HttpError.toResponse e) =
  Headers.of_record (HttpError.toResponse_headers e).
Proof.
  unfold HttpError.toResponse, Response.new, Response.with_content_type.
  cbn [Response.headers Response.init_headers].
  destruct (toResponse_headers_first e) as (v & rest & ->).
  assert (Headers.has "content-type"
            (Headers.of_record (("content-type", v) :: rest)) = true)
    as ->; [|done].
  apply bool_decide_eq_true.
  unfold Headers.of_record. rewrite fmap_cons.
  by rewrite values_cons, decide_True.
Qed.

(** What [get] answers for [content-type]: the first value of the record,
    then the values of the headers of the value whose name is
    [content-type] in another case, in their order. *)
Lemma values_content_type_sent (e : HttpError.t) :
  NoDup (default [] (HttpError.headers e)).*1 →
  Headers.values "content-type" (Response.headers (HttpError.toResponse e)) =
  Headers.normalize <$>
    default "application/json"
      (JS.Record.lookup "content-type" (default [] (HttpError.headers e))) ::
    (filter (λ kv, Headers.lower kv.1 = "content-type" ∧
                   kv.1 ≠ "content-type")
       (default [] (HttpError.headers e))).*2.
Proof.
  intros Hnd.
  rewrite toResponse_headers_sent, values_of_record.
  rewrite (toResponse_headers_eq e Hnd).
  change (Headers.lower "content-type") with "content-type".
  rewrite filter_cons_True by done.
  by rewrite list_filter_filter.
Qed.

(** What [get] answers for a header of the value that is alone up to
    case and is not [content-type] in any case. *)
Lemma get_header_sent (e : HttpError.t) (k v : string) :
  NoDup (default [] (HttpError.headers e)).*1 →
  (k, v) ∈ default [] (HttpError.headers e) →
  Headers.lower k ≠ "content-type" →
  alone_up_to_case k (default [] (HttpError.headers e)) →
  Headers.get k (Response.headers (HttpError.toResponse e)) =
  Some (Headers.normalize v).
Proof.
  intros Hnd Hin Hlow Halone.
  unfold Headers.get.
  rewrite toResponse_headers_sent, values_of_record.
  rewrite (toResponse_headers_eq e Hnd).
  rewrite filter_cons_False
    by (simpl; intros Heq; apply Hlow; by rewrite <-Heq).
  rewrite list_filter_filter.
  rewrite (list_filter_iff _ (λ kv, Headers.lower kv.1 = Headers.lower k)).
  - by rewrite (values_alone k v _ Hnd Hin Halone).
  - intros [j x]. simpl. split; [tauto|].
    intros Hj. split; [done|]. intros ->. by apply Hlow.
Qed.




(** C10. The name of a value is set by the constructor from the class it
    runs for: "HttpError" for [new HttpError(...)], also for every value
    [fromResponse] returns, and "MissingFieldError" for
    [new MissingFieldError(...)].  Values are records that no operation
    updates: [toResponse] and [fromResponse] build a response and a new
    value. *)
Theorem name_of_constructed :
  (∀ c status message details headers,
     HttpError.name (HttpError.construct c status message details headers) =
     HttpError.constructor_name c) ∧
  (∀ status message details headers,
     HttpError.name (HttpError.new status message details headers) =
     "HttpError") ∧
  (∀ fieldName headers,
     HttpError.name (MissingFieldError.new fieldName headers) =
     "MissingFieldError") ∧
  (∀ response log,
     ¬ (200 ≤ Response.status response < 300) →
     ∃ log' e,
       HttpError.fromResponse response log = (log', Fulfilled e) ∧
       HttpError.name e = "HttpError").
Proof.
  repeat split.
  intros response log Hstatus.
  destruct (fromResponse_fulfilled response log Hstatus)
    as (log' & message & details & Hful).
  eexists _, _. split; [exact Hful|]. done.
Qed.

End Serialize.
(** ** The properties on the reference host *)

(** C3 fails on the code: the response 404 whose body was already read
    has a status outside [200, 300), and [fromResponse] does not produce a
    value for it: [response.clone()] throws a [TypeError]. *)
Lemma fromResponse_consumed_body_rejected :
  ¬ (200 ≤ Response.status (Response.response Scenario.consumed_not_found)
     < 300) ∧
  Response.bodyUsed Scenario.consumed_not_found = true ∧
  fromResponse_object_ref Scenario.consumed_not_found [] =
  ([], Rejected (TypeError "Body is unusable")).
Proof.
  split; [simpl; lia|]. split; reflexivity.
Qed.

Lemma fromResponse_object_rejected_iff_witness :
  fromResponse_object_ref (Response.unread Sample.ok_response) [] =
  ([],
   Rejected
     (Error
        "Cannot create HttpError from a successful response (status: 200)")) ∧
  (∃ log' e,
     fromResponse_object_ref (Response.unread Sample.not_found_response) [] =
     (log', Fulfilled e)) ∧
  (∃ msg,
     fromResponse_object_ref Scenario.consumed_not_found [] =
     ([], Rejected (TypeError msg))).
Proof.
  split; [|split].
  - apply (proj1 (proj2 (fromResponse_object_rejected_iff
                           (host := Reference.codec)
                           (Response.unread Sample.ok_response) []))).
    simpl. lia.
  - apply (proj1 (proj2 (proj2 (fromResponse_object_rejected_iff
                                  (host := Reference.codec)
                                  (Response.unread
                                     Sample.not_found_response) [])))).
    + simpl. lia.
    + reflexivity.
  - apply (proj2 (proj2 (proj2 (fromResponse_object_rejected_iff
                                  (host := Reference.codec)
                                  Scenario.consumed_not_found [])))).
    + simpl. lia.
    + reflexivity.
Defined.

Lemma fromResponse_status_and_no_headers_witness :
  ¬ (200 ≤ Response.status Sample.not_modified_response < 300) ∧
  ∃ log' e,
    fromResponse_ref Sample.not_modified_response [] = (log', Fulfilled e) ∧
    HttpError.status e = 304 ∧
    HttpError.headers e = None.
Proof.
  split.
  - simpl. lia.
  - apply (fromResponse_status_and_no_headers (host := Reference.codec)).
    simpl. lia.
Defined.

Lemma fromResponse_json_object_witness :
  fromResponse_ref Sample.json_error_response [] =
  ([],
   Fulfilled
     (HttpError.new 400 "Bad request"
        (Some (VObj Sample.bad_request_body)) None)).
Proof.
  apply (fromResponse_json_object (host := Reference.codec)
           Sample.json_error_response
           (Reference.stringify (VObj Sample.bad_request_body))
           Sample.bad_request_body []).
  - simpl. lia.
  - reflexivity.
  - vm_compute. reflexivity.
Defined.

Lemma fromResponse_not_json_witness :
  fromResponse_ref Sample.text_response [] =
  ([], Fulfilled (HttpError.new 500 "Something went wrong" None None)) ∧
  fromResponse_ref Sample.not_found_response [] =
  ([], Fulfilled (HttpError.new 404 "Not Found" None None)) ∧
  fromResponse_ref Sample.broken_response [] =
  ([("Failed to parse response body:", TypeError "network error")],
   Fulfilled (HttpError.new 502 "Bad Gateway" None None)).
Proof.
  split; [|split].
  - apply (proj1 (fromResponse_not_json (host := Reference.codec)
                    Sample.text_response [] ltac:(simpl; lia))
             "Something went wrong").
    + reflexivity.
    + vm_compute. reflexivity.
  - apply (proj1 (fromResponse_not_json (host := Reference.codec)
                    Sample.not_found_response [] ltac:(simpl; lia))
             "").
    + reflexivity.
    + vm_compute. reflexivity.
  - apply (proj2 (fromResponse_not_json (host := Reference.codec)
                    Sample.broken_response [] ltac:(simpl; lia))
             (TypeError "network error")).
    reflexivity.
Defined.

(** C2, on the code.  The response with the status 500 and the body
    [[1,2]] has a body that parses as JSON to an array, not to an object;
    [fromResponse] does not leave the details absent: the array is the
    details of the value it returns.  The message is "Unknown Error", as
    the claim says. *)
Theorem fromResponse_array_becomes_details :
  JSON.parse (codec := Reference.codec) "[1,2]" =
  Some (VArr [VNum 1; VNum 2]) ∧
  fromResponse_ref Sample.array_response [] =
  ([],
   Fulfilled
     (HttpError.new 500 "Unknown Error"
        (Some (VArr [VNum 1; VNum 2])) None)).
Proof.
  assert (JSON.parse (codec := Reference.codec) "[1,2]" =
          Some (VArr [VNum 1; VNum 2])) as Hparse
    by (vm_compute; reflexivity).
  split; [exact Hparse|].
  apply (fromResponse_json_array (host := Reference.codec)
           Sample.array_response "[1,2]" [VNum 1; VNum 2] []).
  - simpl. lia.
  - reflexivity.
  - exact Hparse.
Qed.

(** [null] is not an object either, and there the details are absent. *)
Example fromResponse_null_body :
  fromResponse_ref Sample.null_response [] =
  ([], Fulfilled (HttpError.new 500 "Internal Server Error" None None)).
Proof.
  apply (fromResponse_json_scalar (host := Reference.codec)
           Sample.null_response "null" VNull []).
  - simpl. lia.
  - reflexivity.
  - vm_compute. reflexivity.
  - discriminate.
  - discriminate.
Qed.






Lemma name_of_constructed_witness :
  ∃ log' e,
    fromResponse_ref Sample.json_error_response [] = (log', Fulfilled e) ∧
    HttpError.name e = "HttpError".
Proof.
  apply (proj2 (proj2 (proj2 (name_of_constructed
                                (host := Reference.codec))))).
  simpl. lia.
Defined.

(** ** The tests of the repository, on the reference host *)

Example test_toResponse_plain :
  let response := toResponse_ref
                    (HttpError.new 500 "Internal server error" None None) in
  Response.status response = 500 ∧
  Headers.get "content-type" (Response.headers response) =
  Some "application/json" ∧
  Response.json (host := Reference.codec) response [] =
  ([], Fulfilled (VObj {[ "error" := VStr "Internal server error" ]})).
Proof. vm_compute. by repeat split. Qed.

Example test_toResponse_details :
  Response.json (host := Reference.codec)
    (toResponse_ref Sample.unauthorized) [] =
  ([],
   Fulfilled
     (VObj {[ "error" := VStr "Unauthorized";
              "code" := VStr "AUTH_FAILED";
              "retry" := VBool false ]})).
Proof. vm_compute. reflexivity. Qed.

Example test_toResponse_custom_header :
  let response :=
    toResponse_ref
      (HttpError.new 401 "Session expired" (Some VNull)
         (Some [("Set-Cookie", "session_id=; Max-Age=0; Path=/")])) in
  Headers.get "content-type" (Response.headers response) =
  Some "application/json" ∧
  Headers.get "Set-Cookie" (Response.headers response) =
  Some "session_id=; Max-Age=0; Path=/".
Proof. vm_compute. by split. Qed.

Example test_fromResponse_without_error_key :
  fromResponse_ref
    (Sample.received 422 "Unprocessable Entity"
       (Response.BodyText
          (Reference.stringify
             (VObj {[ "code" := VStr "INVALID"; "details" := VStr "foo" ]}))))
    [] =
  ([],
   Fulfilled
     (HttpError.new 422 "Unprocessable Entity"
        (Some (VObj {[ "code" := VStr "INVALID"; "details" := VStr "foo" ]}))
        None)).
Proof. vm_compute. reflexivity. Qed.

Example test_MissingFieldError :
  let e := MissingFieldError.new "username" None in
  HttpError.name e = "MissingFieldError" ∧
  Response.json (host := Reference.codec) (toResponse_ref e) [] =
  ([],
   Fulfilled
     (VObj {[ "error" := VStr "Missing required field: username";
              "field" := VStr "username" ]})).
Proof. vm_compute. by split. Qed.

(** What the constructor and [clone] refuse. *)
Example test_platform_checks :
  toResponse_checked_ref Scenario.no_content =
  inl (TypeError "Response with null body status cannot have body") ∧
  toResponse_checked_ref
    (HttpError.new 400 "Bad request" None (Some [("bad name", "x")])) =
  inl (TypeError "Invalid header name or value") ∧
  toResponse_checked_ref (HttpError.new 65936 "Wrapped" None None) =
  inr (toResponse_ref (HttpError.new 400 "Wrapped" None None)) ∧
  Response.clone
    {| Response.response := Sample.text_response;
       Response.bodyUsed := false;
       Response.locked := true |} =
  inl (TypeError "Body is unusable").
Proof. vm_compute. by repeat split. Qed.

(** * Further properties of the code *)

(** ** Arrays and strings as objects *)

Lemma lookup_named_Some {A : Type} (f : nat → string) (k : string)
    (l : list A) (x : A) :
  (list_to_map (imap (λ i y, (f i, y)) l) : gmap string A) !! k = Some x →
  ∃ i, k = f i ∧ l !! i = Some x.
Proof.
  revert f. induction l as [|y l IH]; intros f; simpl.
  { by rewrite lookup_empty. }
  destruct (decide (k = f 0%nat)) as [->|Hne].
  - rewrite lookup_insert_eq. intros [= ->]. by exists 0%nat.
  - rewrite lookup_insert_ne by done. intros Hk.
    destruct (IH (f ∘ S) Hk) as (i & -> & Hi). by exists (S i).
Qed.

Lemma lookup_named_inj {A : Type} (f : nat → string) (l : list A) (i : nat) :
  Inj (=) (=) f →
  (list_to_map (imap (λ j y, (f j, y)) l) : gmap string A) !! f i = l !! i.
Proof.
  revert f i. induction l as [|y l IH]; intros f i Hinj; simpl.
  { by rewrite lookup_empty. }
  destruct i as [|i].
  - by rewrite lookup_insert_eq.
  - rewrite lookup_insert_ne by (intros Heq; by apply Hinj in Heq).
    apply (IH (f ∘ S) i). intros a b Hab. apply Hinj in Hab. lia.
Qed.

(** The element at an index is the property under its decimal name. *)
Lemma indexed_lookup {A : Type} (l : list A) (i : nat) :
  JS.indexed l !! pretty i = l !! i.
Proof. apply lookup_named_inj, _. Qed.

Lemma indexed_lookup_Some {A : Type} (l : list A) (k : string) (x : A) :
  JS.indexed l !! k = Some x → ∃ i : nat, k = pretty i ∧ l !! i = Some x.
Proof. apply lookup_named_Some. Qed.

(** Only an object can have an own property named [error]. *)
Lemma own_properties_error (v : value) :
  JS.own_properties v !! "error" =
  match v with
  | VObj o => o !! "error"
  | _ => None
  end.
Proof.
  destruct v; simpl; try done; apply indexed_error_None.
Qed.

(** ** [toResponse] *)

(** The properties of the body of [toResponse], name by name. *)
Lemma toResponse_body_lookup (e : HttpError.t) (k : string) :
  HttpError.toResponse_body e !! k =
  match JS.own_properties (JS.or_else (HttpError.details e) (VObj ∅)) !! k with
  | Some x => Some x
  | None =>
      if decide (k = "error") then Some (VStr (HttpError.message e)) else None
  end.
Proof. apply lookup_literal_spread. Qed.

(** X1. The body that [toResponse] serialises always has a key [error].
    It holds the message, unless the details are an object with a key
    [error] of their own, whose value it then holds: details that are
    absent, [null], a scalar, a string or an array never displace the
    message. *)
Theorem toResponse_error_key (e : HttpError.t) :
  HttpError.toResponse_body e !! "error" =
  match HttpError.details e with
  | Some (VObj o) =>
      match o !! "error" with
      | Some v => Some v
      | None => Some (VStr (HttpError.message e))
      end
  | _ => Some (VStr (HttpError.message e))
  end.
Proof.
  rewrite toResponse_body_lookup, own_properties_error.
  destruct (HttpError.details e) as [v|]; simpl; [|done].
  destruct v as [| b | n | s | l | o]; simpl; try done.
  - by destruct b.
  - by destruct (negb (n =? 0)).
  - by destruct (negb (String.eqb s "")).
Qed.

(** Details without own properties leave the message alone in the body. *)
Lemma toResponse_body_no_own_properties (e : HttpError.t) :
  JS.own_properties (JS.or_else (HttpError.details e) (VObj ∅)) = ∅ →
  HttpError.toResponse_body e = {[ "error" := VStr (HttpError.message e) ]}.
Proof.
  intros Hown. apply map_eq. intros k.
  rewrite toResponse_body_lookup, Hown, lookup_empty.
  case_decide as Hk.
  - subst k. by rewrite lookup_singleton_eq.
  - by rewrite lookup_singleton_ne.
Qed.

(** Details that are an object with a key [error] are the whole body. *)
Lemma toResponse_body_absorbs
    (e : HttpError.t) (o : gmap string value) (v : value) :
  HttpError.details e = Some (VObj o) →
  o !! "error" = Some v →
  HttpError.toResponse_body e = o.
Proof.
  intros Hdetails Herror.
  apply map_eq. intros k.
  rewrite toResponse_body_lookup, Hdetails. simpl.
  destruct (o !! k) eqn:Hk; [done|].
  case_decide; [congruence|done].
Qed.

(** X2. When the details are absent, [null], a boolean, a number, the
    empty string, the empty array or the empty object, the body that
    [toResponse] serialises is exactly [{error: message}]. *)
Theorem toResponse_body_without_details (e : HttpError.t) :
  HttpError.details e = None ∨
  HttpError.details e = Some VNull ∨
  (∃ b, HttpError.details e = Some (VBool b)) ∨
  (∃ n, HttpError.details e = Some (VNum n)) ∨
  HttpError.details e = Some (VStr "") ∨
  HttpError.details e = Some (VArr []) ∨
  HttpError.details e = Some (VObj ∅) →
  HttpError.toResponse_body e = {[ "error" := VStr (HttpError.message e) ]}.
Proof.
  intros Hdetails. apply toResponse_body_no_own_properties.
  destruct Hdetails as [H|[H|[[b H]|[[n H]|[H|[H|H]]]]]];
    rewrite H; simpl; try done.
  - by destruct b.
  - by destruct (negb (n =? 0)).
Qed.

(** X3. When the details are an object, every entry of the details is
    an entry of the body that [toResponse] serialises, with the same value,
    and the body has no other key than those of the details and [error]. *)
Theorem toResponse_body_keeps_details
    (e : HttpError.t) (o : gmap string value) :
  HttpError.details e = Some (VObj o) →
  (∀ k v, o !! k = Some v → HttpError.toResponse_body e !! k = Some v) ∧
  dom (HttpError.toResponse_body e) = dom o ∪ {[ "error" ]}.
Proof.
  intros Hdetails. split.
  - intros k v Hk. rewrite toResponse_body_lookup, Hdetails. simpl.
    by rewrite Hk.
  - rewrite (toResponse_body_object e o Hdetails).
    by rewrite dom_union_L, dom_singleton_L.
Qed.

(** X4. When the details are an array, the body that [toResponse]
    serialises holds the elements of the array under their indices written
    in decimal, the message under [error], and nothing else. *)
Theorem toResponse_array_details (e : HttpError.t) (l : list value) :
  HttpError.details e = Some (VArr l) →
  HttpError.toResponse_body e !! "error" = Some (VStr (HttpError.message e)) ∧
  (∀ i : nat, HttpError.toResponse_body e !! pretty i = l !! i) ∧
  (∀ k, is_Some (HttpError.toResponse_body e !! k) →
        k = "error" ∨ ∃ i : nat, k = pretty i ∧ (i < length l)%nat).
Proof.
  intros Hdetails.
  assert (∀ k, HttpError.toResponse_body e !! k =
               match JS.indexed l !! k with
               | Some x => Some x
               | None =>
                   if decide (k = "error")
                   then Some (VStr (HttpError.message e)) else None
               end) as Hlookup.
  { intros k. by rewrite toResponse_body_lookup, Hdetails. }
  split; [|split].
  - by rewrite Hlookup, indexed_error_None.
  - intros i. rewrite Hlookup, indexed_lookup.
    destruct (l !! i) eqn:Hi; [done|].
    case_decide as Herr; [|done].
    by destruct (pretty_nat_ne_error i).
  - intros k [x Hk]. rewrite Hlookup in Hk.
    destruct (JS.indexed l !! k) as [y|] eqn:Hidx.
    + right. apply indexed_lookup_Some in Hidx as (i & -> & Hi).
      exists i. split; [done|]. by apply lookup_lt_Some in Hi.
    + left. by case_decide.
Qed.

(** ** [toResponse] and [fromResponse] together *)

Section Composition.

Context {host : JSON.codec}.

(** The body of a response built by [toResponse]. *)
Lemma toResponse_sent (e : HttpError.t) :
  Response.body (HttpError.toResponse e) =
  Response.BodyText (JSON.stringify (VObj (HttpError.toResponse_body e))) ∧
  Response.status (HttpError.toResponse e) = HttpError.status e ∧
  Response.statusText (HttpError.toResponse e) = "".
Proof. done. Qed.

(** What [fromResponse] reads from the response [toResponse] built, on a
    host whose [parse] reads back the body [stringify] wrote. *)
Lemma fromResponse_toResponse_any (e : HttpError.t) (log : console) :
  ¬ (200 ≤ HttpError.status e < 300) →
  JSON.parse (JSON.stringify (VObj (HttpError.toResponse_body e))) =
  Some (VObj (HttpError.toResponse_body e)) →
  HttpError.fromResponse (HttpError.toResponse e) log =
  (log,
   Fulfilled
     (HttpError.new (HttpError.status e)
        match HttpError.toResponse_body e !! "error" with
        | Some (VStr m) => m
        | _ => "Unknown Error"
        end
        (Some (VObj (HttpError.toResponse_body e))) None)).
Proof.
  intros Hstatus Hcodec.
  destruct (toResponse_sent e) as (Hbody & Hst & Htext).
  rewrite fromResponse_unfold by (by rewrite Hst). cbv zeta.
  rewrite Hbody, Hcodec, Hst.
  unfold reason_phrase_or_unknown. by rewrite Htext.
Qed.

(** The statuses 300..599 without 304 are accepted by the constructor
    and are outside [200, 300). *)
Lemma error_status_accepted (status : Z) :
  300 ≤ status ≤ 599 → status ≠ 304 →
  accepted_status status ∧ ¬ (200 ≤ status < 300).
Proof. unfold accepted_status. lia. Qed.

(** [toResponse] returns the response for such a status, when the
    constructor accepts the headers. *)
Lemma toResponse_checked_error_status (e : HttpError.t) :
  300 ≤ HttpError.status e ≤ 599 → HttpError.status e ≠ 304 →
  accepted_headers (default [] (HttpError.headers e)) →
  HttpError.toResponse_checked e = inr (HttpError.toResponse e).
Proof.
  intros Hrange H304 Hheaders.
  apply toResponse_checked_accepted; [|done].
  by apply error_status_accepted.
Qed.

(** X5. Details that are absent or [null] do not come back absent: for a
    status in 300..599 other than 304 and headers that the constructor of
    [Response] accepts, on a host whose [parse] reads back the body
    [stringify] wrote, [toResponse] returns a response and [fromResponse]
    of it returns the status and the message of the value with the details
    [{error: message}], and without the headers of the value. *)
Theorem round_trip_without_details (e : HttpError.t) (log : console) :
  HttpError.details e = None ∨ HttpError.details e = Some VNull →
  300 ≤ HttpError.status e ≤ 599 →
  HttpError.status e ≠ 304 →
  accepted_headers (default [] (HttpError.headers e)) →
  JSON.parse
    (JSON.stringify (VObj {[ "error" := VStr (HttpError.message e) ]})) =
  Some (VObj {[ "error" := VStr (HttpError.message e) ]}) →
  HttpError.toResponse_checked e = inr (HttpError.toResponse e) ∧
  HttpError.fromResponse (HttpError.toResponse e) log =
  (log,
   Fulfilled
     (HttpError.new (HttpError.status e) (HttpError.message e)
        (Some (VObj {[ "error" := VStr (HttpError.message e) ]})) None)).
Proof.
  intros Hdetails Hrange H304 Hheaders Hcodec.
  split; [by apply toResponse_checked_error_status|].
  assert (¬ (200 ≤ HttpError.status e < 300)) as Hstatus by lia.
  assert (HttpError.toResponse_body e =
          {[ "error" := VStr (HttpError.message e) ]}) as Hbody.
  { apply toResponse_body_no_own_properties.
    by destruct Hdetails as [-> | ->]. }
  rewrite fromResponse_toResponse_any by (done || by rewrite Hbody).
  by rewrite Hbody, lookup_singleton_eq.
Qed.

(** X6. The message does not survive a key [error] in the details: when
    the details are an object with a key [error], for a status in 300..599
    other than 304 and headers that the constructor of [Response] accepts,
    on a host whose [parse] reads back the body [stringify] wrote,
    [toResponse] returns a response and [fromResponse] of it returns the
    details as they were and, as the message, the value of their [error]
    when it is a string and "Unknown Error" when it is not. *)
Theorem round_trip_details_error
    (e : HttpError.t) (o : gmap string value) (v : value) (log : console) :
  HttpError.details e = Some (VObj o) →
  o !! "error" = Some v →
  300 ≤ HttpError.status e ≤ 599 →
  HttpError.status e ≠ 304 →
  accepted_headers (default [] (HttpError.headers e)) →
  JSON.parse (JSON.stringify (VObj o)) = Some (VObj o) →
  HttpError.toResponse_checked e = inr (HttpError.toResponse e) ∧
  HttpError.fromResponse (HttpError.toResponse e) log =
  (log,
   Fulfilled
     (HttpError.new (HttpError.status e)
        match v with
        | VStr m => m
        | _ => "Unknown Error"
        end
        (Some (VObj o)) None)).
Proof.
  intros Hdetails Herror Hrange H304 Hheaders Hcodec.
  split; [by apply toResponse_checked_error_status|].
  assert (¬ (200 ≤ HttpError.status e < 300)) as Hstatus by lia.
  assert (HttpError.toResponse_body e = o) as Hbody.
  { by apply (toResponse_body_absorbs e o v). }
  rewrite fromResponse_toResponse_any by (done || by rewrite Hbody).
  by rewrite Hbody, Herror.
Qed.

(** X7. A value with a status of the success range cannot be read back.
    For a status in [200, 300) other than 204 and 205 and headers that the
    constructor of [Response] accepts, [toResponse] returns a response and
    [fromResponse] of it is rejected with the [Error] that names the
    status, whatever the message, the details and the host are.  For the
    statuses 204 and 205 [toResponse] itself throws a [TypeError]: these
    statuses cannot have a body. *)
Theorem round_trip_success_status_rejected
    (e : HttpError.t) (log : console) :
  200 ≤ HttpError.status e < 300 →
  (HttpError.status e ≠ 204 → HttpError.status e ≠ 205 →
   accepted_headers (default [] (HttpError.headers e)) →
   HttpError.toResponse_checked e = inr (HttpError.toResponse e) ∧
   HttpError.fromResponse (HttpError.toResponse e) log =
   (log,
    Rejected
      (Error ("Cannot create HttpError from a successful response (status: "
              +:+ pretty (HttpError.status e) +:+ ")")))) ∧
  (HttpError.status e = 204 ∨ HttpError.status e = 205 →
   ∃ msg, HttpError.toResponse_checked e = inl (TypeError msg)).
Proof.
  intros Hstatus. split.
  - intros H204 H205 Hheaders. split.
    + apply toResponse_checked_accepted; [|done].
      unfold accepted_status. lia.
    + by rewrite fromResponse_success_status.
  - intros Hnull. apply construct_null_body_status. simpl.
    rewrite !elem_of_cons. tauto.
Qed.


(** X9. One round trip reaches a fixed point: for a status in 300..599
    other than 304 and headers that the constructor of [Response] accepts,
    on a host whose [parse] reads back the body [stringify] wrote,
    [toResponse] returns a response, [fromResponse] of it returns a value,
    and that value, sent through [toResponse] and [fromResponse] once
    more, is returned again, unchanged. *)
Theorem round_trip_idempotent (e : HttpError.t) (log : console) :
  300 ≤ HttpError.status e ≤ 599 →
  HttpError.status e ≠ 304 →
  accepted_headers (default [] (HttpError.headers e)) →
  JSON.parse (JSON.stringify (VObj (HttpError.toResponse_body e))) =
  Some (VObj (HttpError.toResponse_body e)) →
  ∃ e1,
    HttpError.toResponse_checked e = inr (HttpError.toResponse e) ∧
    HttpError.fromResponse (HttpError.toResponse e) log =
    (log, Fulfilled e1) ∧
    HttpError.toResponse_checked e1 = inr (HttpError.toResponse e1) ∧
    HttpError.fromResponse (HttpError.toResponse e1) log =
    (log, Fulfilled e1).
Proof.
  intros Hrange H304 Hheaders Hcodec.
  assert (¬ (200 ≤ HttpError.status e < 300)) as Hstatus by lia.
  eexists. split; [by apply toResponse_checked_error_status|].
  split; [by apply fromResponse_toResponse_any|].
  split; [apply toResponse_checked_error_status; [done|done|apply Forall_nil_2]|].
  set (b := HttpError.toResponse_body e) in *.
  set (m := match b !! "error" with Some (VStr m) => m | _ => "Unknown Error"
            end).
  set (e1 := HttpError.new (HttpError.status e) m (Some (VObj b)) None).
  assert (is_Some (b !! "error")) as [v Hv].
  { subst b. rewrite toResponse_body_lookup.
    destruct (JS.own_properties _ !! "error"); by eauto. }
  assert (HttpError.toResponse_body e1 = b) as Hbody.
  { by apply (toResponse_body_absorbs e1 b v). }
  rewrite fromResponse_toResponse_any by (done || by rewrite Hbody).
  by rewrite Hbody.
Qed.

(** X10. Sending on what was received: for a status in 300..599 other
    than 304 and a body that parses to an object, [toResponse] of the value
    [fromResponse] returns gives a response with the same status, with the
    parsed object as the body when it has a key [error], and otherwise
    with the parsed object extended by [error], holding the reason phrase
    or "Unknown Error".  The headers of the response received are not sent
    on: the new response has the default [content-type] only. *)
Theorem toResponse_fromResponse_object
    (response : Response.t) (s : string) (o : gmap string value)
    (log : console) :
  300 ≤ Response.status response ≤ 599 →
  Response.status response ≠ 304 →
  Response.body response = Response.BodyText s →
  JSON.parse s = Some (VObj o) →
  ∃ e,
    HttpError.fromResponse response log = (log, Fulfilled e) ∧
    HttpError.toResponse_checked e = inr (HttpError.toResponse e) ∧
    Response.status (HttpError.toResponse e) = Response.status response ∧
    Response.body (HttpError.toResponse e) =
    Response.BodyText
      (JSON.stringify
         (VObj (if decide (is_Some (o !! "error")) then o
                else <["error" := VStr (reason_phrase_or_unknown response)]>
                       o))) ∧
    Response.headers (HttpError.toResponse e) =
    [("content-type", "application/json")].
Proof.
  intros Hrange H304 Hbody Hparse.
  assert (¬ (200 ≤ Response.status response < 300)) as Hstatus by lia.
  eexists. split.
  { rewrite fromResponse_unfold by done. cbv zeta.
    rewrite Hbody, Hparse. reflexivity. }
  set (e := HttpError.new _ _ _ _).
  split; [apply toResponse_checked_error_status; [done|done|apply Forall_nil_2]|].
  split; [done|]. split; [|done].
  destruct (toResponse_sent e) as (-> & _ & _). do 3 f_equal.
  case_decide as Herr.
  - destruct Herr as [v Hv]. by apply (toResponse_body_absorbs e o v).
  - apply eq_None_not_Some in Herr.
    rewrite (toResponse_body_object e o) by done.
    subst e. simpl. rewrite Herr.
    apply map_eq. intros k. rewrite lookup_union.
    destruct (decide (k = "error")) as [->|Hne].
    + by rewrite Herr, lookup_singleton_eq, lookup_insert_eq.
    + rewrite lookup_singleton_ne, lookup_insert_ne by done.
      by destruct (o !! k).
Qed.

End Composition.

(** ** What [fromResponse] returns and writes *)

Section Results.

Context {host : JSON.codec}.

(** X11. [fromResponse] writes to the console in one case only: the
    status is outside [200, 300) and the body cannot be read; it then adds
    the one line "Failed to parse response body:" with the reason.  A body
    that reads as a text leaves the console as it was, also when the text
    is not JSON. *)
Theorem fromResponse_console (response : Response.t) (log : console) :
  (HttpError.fromResponse response log).1 =
  match Response.body response with
  | Response.BodyText _ => log
  | Response.BodyFailure reason =>
      if decide (200 ≤ Response.status response < 300) then log
      else log ++ [("Failed to parse response body:", reason)]
  end.
Proof.
  destruct (decide (200 ≤ Response.status response < 300)) as [Hin|Hout].
  - rewrite fromResponse_success_status by done. simpl.
    by destruct (Response.body response).
  - rewrite fromResponse_unfold by done. cbv zeta.
    destruct (Response.body response) as [s|reason]; [|done].
    by destruct (JSON.parse s) as [[| b | n | str | l | o]|].
Qed.

(** X12. For a status outside [200, 300), the message of the value
    [fromResponse] returns is empty if and only if the body parses to an
    object whose [error] is the empty string. *)
Theorem fromResponse_message_empty (response : Response.t) (log : console) :
  ¬ (200 ≤ Response.status response < 300) →
  ∃ log' e,
    HttpError.fromResponse response log = (log', Fulfilled e) ∧
    (HttpError.message e = "" ↔
     ∃ s o, Response.body response = Response.BodyText s ∧
            JSON.parse s = Some (VObj o) ∧
            o !! "error" = Some (VStr "")).
Proof.
  intros Hstatus.
  assert (reason_phrase_or_unknown response ≠ "") as Hfallback.
  { unfold reason_phrase_or_unknown. by case_decide. }
  rewrite fromResponse_unfold by done. cbv zeta.
  destruct (Response.body response) as [s|reason] eqn:Hbody.
  2:{ eexists _, _. split; [done|]. simpl. split; [done|].
      by intros (s & o & ? & _). }
  destruct (JSON.parse s) as [[| b | n | str | l | o]|] eqn:Hparse;
    (eexists _, _; split; [done|]; simpl; split;
     [|intros (s' & o' & [= <-] & Hp & Herr); rewrite Hparse in Hp]);
    try done; try discriminate.
  - destruct (o !! "error") as [[| | | m | |]|] eqn:Herr; try done.
    intros ->. by exists s, o.
  - injection Hp as ->. by rewrite Herr.
  - case_decide; [done|congruence].
Qed.

(** X13. The value [fromResponse] returns has details exactly when the
    body parses to an array or to an object, and the details are then the
    parsed value itself: they are never [null] or a scalar, and a text
    that is not JSON never becomes details. *)
Theorem fromResponse_details_present_iff
    (response : Response.t) (log : console) :
  ¬ (200 ≤ Response.status response < 300) →
  ∃ log' e,
    HttpError.fromResponse response log = (log', Fulfilled e) ∧
    ∀ v,
      HttpError.details e = Some v ↔
      ∃ s, Response.body response = Response.BodyText s ∧
           JSON.parse s = Some v ∧
           ((∃ l, v = VArr l) ∨ (∃ o, v = VObj o)).
Proof.
  intros Hstatus.
  rewrite fromResponse_unfold by done. cbv zeta.
  destruct (Response.body response) as [s|reason] eqn:Hbody.
  2:{ eexists _, _. split; [done|]. simpl. intros v. split; [done|].
      by intros (s & ? & _). }
  destruct (JSON.parse s) as [[| b | n | str | l | o]|] eqn:Hparse;
    (eexists _, _; split; [done|]; simpl; intros v; split;
     [|intros (s' & [= <-] & Hp & Hshape); rewrite Hparse in Hp;
       try discriminate; injection Hp as <-]);
    try done;
    try (by destruct Hshape as [[? ?]|[? ?]]).
  - intros [= <-]. exists s. eauto.
  - intros [= <-]. exists s. eauto.
Qed.

(** X15. A body that parses to [null], a boolean, a number or a string is
    JSON, so its text is not taken as the message, unlike a text that is
    not JSON: for a status outside [200, 300) the message is the reason
    phrase or "Unknown Error", and the details are absent. *)
Theorem fromResponse_json_scalar_text_unused
    (response : Response.t) (s : string) (v : value) (log : console) :
  ¬ (200 ≤ Response.status response < 300) →
  Response.body response = Response.BodyText s →
  JSON.parse s = Some v →
  match v with VArr _ | VObj _ => False | _ => True end →
  HttpError.fromResponse response log =
  (log,
   Fulfilled
     (HttpError.new (Response.status response)
        (reason_phrase_or_unknown response) None None)).
Proof.
  intros Hstatus Hbody Hparse Hscalar.
  rewrite fromResponse_unfold by done. cbv zeta.
  rewrite Hbody, Hparse.
  by destruct v.
Qed.

(** X16. Sending on a text: for a status in 300..599 other than 304 and
    a body that is not JSON and not empty, [toResponse] of the value
    [fromResponse] returns gives a response with the same status and the
    body [{error: text}]. *)
Theorem toResponse_fromResponse_text
    (response : Response.t) (s : string) (log : console) :
  300 ≤ Response.status response ≤ 599 →
  Response.status response ≠ 304 →
  Response.body response = Response.BodyText s →
  JSON.parse s = None →
  s ≠ "" →
  ∃ e,
    HttpError.fromResponse response log = (log, Fulfilled e) ∧
    HttpError.toResponse_checked e = inr (HttpError.toResponse e) ∧
    Response.status (HttpError.toResponse e) = Response.status response ∧
    Response.body (HttpError.toResponse e) =
    Response.BodyText (JSON.stringify (VObj {[ "error" := VStr s ]})).
Proof.
  intros Hrange H304 Hbody Hparse Hs.
  assert (¬ (200 ≤ Response.status response < 300)) as Hstatus by lia.
  eexists. split.
  { rewrite fromResponse_unfold by done. cbv zeta.
    rewrite Hbody, Hparse. reflexivity. }
  split.
  { apply toResponse_checked_accepted; [|apply Forall_nil_2].
    unfold accepted_status. simpl. lia. }
  split; [done|].
  rewrite decide_False by done.
  unfold HttpError.toResponse. simpl. do 3 f_equal.
Qed.

End Results.

(** ** The headers of the response *)

Section ResponseHeaders.

Context {host : JSON.codec}.

(** X14. For a status and headers that the constructor of [Response]
    accepts, when no header name of the value is [content-type] up to case
    (in particular when the value has no headers), the response that
    [toResponse] returns answers [get] for [content-type], in any case,
    with [application/json], and it answers [get] for every header name of
    the value that is alone up to case with the value given for it, without
    the whitespace around it. *)
Theorem toResponse_default_content_type (e : HttpError.t) :
  let h := default [] (HttpError.headers e) in
  let sent := Response.headers (HttpError.toResponse e) in
  accepted_status (HttpError.status e) →
  accepted_headers h →
  NoDup h.*1 →
  (∀ k, k ∈ h.*1 → Headers.lower k ≠ "content-type") →
  HttpError.toResponse_checked e = inr (HttpError.toResponse e) ∧
  (∀ name,
     Headers.lower name = "content-type" →
     Headers.get name sent = Some "application/json") ∧
  (∀ k v,
     (k, v) ∈ h →
     alone_up_to_case k h →
     Headers.get k sent = Some (Headers.normalize v)).
Proof.
  intros h sent Hstatus Haccepted Hnd Hfree.
  split; [by apply toResponse_checked_accepted|]. split.
  - intros name Hname. unfold Headers.get.
    rewrite (values_lower name "content-type") by done. subst sent.
    rewrite values_content_type_sent by done. fold h.
    assert (JS.Record.lookup "content-type" h = None) as ->.
    { assert ("content-type" ∉ h.*1) as Hct.
      { intros Hin. by apply (Hfree _ Hin). }
      clear -Hct. induction h as [|[k v] h IH]; simpl; [done|].
      simpl in Hct. apply not_elem_of_cons in Hct as [Hne Hct].
      destruct (String.eqb_spec k "content-type"); [congruence|].
      by apply IH. }
    assert (filter (λ kv, Headers.lower kv.1 = "content-type" ∧
                          kv.1 ≠ "content-type") h = []) as ->; [|done].
    apply elem_of_nil_inv. intros [j x] [[Hlow _] Hjx]%list_elem_of_filter.
    simpl in Hlow. apply (Hfree j); [|done].
    apply list_elem_of_fmap. by exists (j, x).
  - intros k v Hin Halone. subst sent.
    apply get_header_sent; [done|done| |done].
    apply Hfree. apply list_elem_of_fmap. by exists (k, v).
Qed.

End ResponseHeaders.

(** ** The further properties on the reference host *)

Lemma toResponse_body_without_details_witness :
  HttpError.details Sample.plain_text = Some VNull ∧
  HttpError.toResponse_body Sample.plain_text =
  {[ "error" := VStr "Bad request" ]}.
Proof.
  split; [reflexivity|].
  apply (toResponse_body_without_details Sample.plain_text).
  right. left. reflexivity.
Defined.

Lemma toResponse_body_keeps_details_witness :
  (∀ k v,
     ({[ "code" := VStr "AUTH_FAILED"; "retry" := VBool false ]}
        : gmap string value) !! k = Some v →
     HttpError.toResponse_body Sample.unauthorized !! k = Some v) ∧
  dom (HttpError.toResponse_body Sample.unauthorized) =
  dom ({[ "code" := VStr "AUTH_FAILED"; "retry" := VBool false ]}
         : gmap string value) ∪ {[ "error" ]}.
Proof.
  apply (toResponse_body_keeps_details Sample.unauthorized).
  reflexivity.
Defined.

Lemma toResponse_array_details_witness :
  HttpError.toResponse_body Scenario.listed !! "error" =
  Some (VStr "Unknown Error") ∧
  (∀ i : nat,
     HttpError.toResponse_body Scenario.listed !! pretty i =
     [VNum 1; VNum 2] !! i) ∧
  (∀ k, is_Some (HttpError.toResponse_body Scenario.listed !! k) →
        k = "error" ∨ ∃ i : nat, k = pretty i ∧ (i < 2)%nat).
Proof.
  apply (toResponse_array_details Scenario.listed [VNum 1; VNum 2]).
  reflexivity.
Defined.

Lemma round_trip_without_details_witness :
  toResponse_checked_ref Scenario.session_expired =
  inr (toResponse_ref Scenario.session_expired) ∧
  fromResponse_ref (toResponse_ref Scenario.session_expired) [] =
  ([],
   Fulfilled
     (HttpError.new 401 "Session expired"
        (Some (VObj {[ "error" := VStr "Session expired" ]})) None)).
Proof.
  apply (round_trip_without_details (host := Reference.codec)
           Scenario.session_expired []).
  - right. reflexivity.
  - simpl. lia.
  - simpl. lia.
  - constructor; [reflexivity|constructor].
  - vm_compute. reflexivity.
Defined.

Lemma round_trip_details_error_witness :
  (toResponse_checked_ref Scenario.coded =
   inr (toResponse_ref Scenario.coded) ∧
   fromResponse_ref (toResponse_ref Scenario.coded) [] =
   ([],
    Fulfilled
      (HttpError.new 409 "Unknown Error"
         (Some (VObj {[ "error" := VNum 7; "resource" := VStr "user" ]}))
         None))) ∧
  (toResponse_checked_ref Sample.shadowed =
   inr (toResponse_ref Sample.shadowed) ∧
   fromResponse_ref (toResponse_ref Sample.shadowed) [] =
   ([],
    Fulfilled
      (HttpError.new 400 "from details"
         (Some (VObj {[ "error" := VStr "from details";
                        "field" := VStr "email" ]}))
         None))).
Proof.
  split.
  - apply (round_trip_details_error (host := Reference.codec)
             Scenario.coded
             {[ "error" := VNum 7; "resource" := VStr "user" ]}
             (VNum 7) []).
    + reflexivity.
    + reflexivity.
    + simpl. lia.
    + simpl. lia.
    + constructor.
    + vm_compute. reflexivity.
  - apply (round_trip_details_error (host := Reference.codec)
             Sample.shadowed
             {[ "error" := VStr "from details"; "field" := VStr "email" ]}
             (VStr "from details") []).
    + reflexivity.
    + reflexivity.
    + simpl. lia.
    + simpl. lia.
    + constructor.
    + vm_compute. reflexivity.
Defined.

Lemma round_trip_success_status_rejected_witness :
  (toResponse_checked_ref Scenario.created =
   inr (toResponse_ref Scenario.created) ∧
   fromResponse_ref (toResponse_ref Scenario.created) [] =
   ([],
    Rejected
      (Error
         "Cannot create HttpError from a successful response (status: 201)")))
  ∧
  (∃ msg, toResponse_checked_ref Scenario.no_content = inl (TypeError msg)).
Proof.
  split.
  - apply (round_trip_success_status_rejected (host := Reference.codec)
             Scenario.created []).
    + simpl. lia.
    + discriminate.
    + discriminate.
    + constructor.
  - apply (round_trip_success_status_rejected (host := Reference.codec)
             Scenario.no_content []).
    + simpl. lia.
    + left. reflexivity.
Defined.


Lemma round_trip_idempotent_witness :
  ∃ e1,
    toResponse_checked_ref Sample.shadowed =
    inr (toResponse_ref Sample.shadowed) ∧
    fromResponse_ref (toResponse_ref Sample.shadowed) [] =
    ([], Fulfilled e1) ∧
    toResponse_checked_ref e1 = inr (toResponse_ref e1) ∧
    fromResponse_ref (toResponse_ref e1) [] = ([], Fulfilled e1).
Proof.
  apply (round_trip_idempotent (host := Reference.codec) Sample.shadowed []).
  - simpl. lia.
  - simpl. lia.
  - constructor.
  - vm_compute. reflexivity.
Defined.

Lemma toResponse_fromResponse_object_witness :
  ∃ e,
    fromResponse_ref Scenario.unprocessable_response [] =
    ([], Fulfilled e) ∧
    toResponse_checked_ref e = inr (toResponse_ref e) ∧
    Response.status (toResponse_ref e) = 422 ∧
    Response.body (toResponse_ref e) =
    Response.BodyText
      (Reference.stringify
         (VObj (<["error" := VStr "Unprocessable Entity"]>
                  Scenario.unprocessable_body))) ∧
    Response.headers (toResponse_ref e) =
    [("content-type", "application/json")].
Proof.
  apply (toResponse_fromResponse_object (host := Reference.codec)
           Scenario.unprocessable_response
           (Reference.stringify (VObj Scenario.unprocessable_body))
           Scenario.unprocessable_body []).
  - simpl. lia.
  - simpl. lia.
  - reflexivity.
  - vm_compute. reflexivity.
Defined.

Lemma fromResponse_message_empty_witness :
  ∃ log' e,
    fromResponse_ref Scenario.empty_error_response [] =
    (log', Fulfilled e) ∧
    (HttpError.message e = "" ↔
     ∃ s o,
       Response.body Scenario.empty_error_response = Response.BodyText s ∧
       JSON.parse (codec := Reference.codec) s = Some (VObj o) ∧
       o !! "error" = Some (VStr "")).
Proof.
  apply (fromResponse_message_empty (host := Reference.codec)
           Scenario.empty_error_response []).
  simpl. lia.
Defined.

Lemma fromResponse_details_present_iff_witness :
  ∃ log' e,
    fromResponse_ref Sample.text_response [] = (log', Fulfilled e) ∧
    ∀ v,
      HttpError.details e = Some v ↔
      ∃ s, Response.body Sample.text_response = Response.BodyText s ∧
           JSON.parse (codec := Reference.codec) s = Some v ∧
           ((∃ l, v = VArr l) ∨ (∃ o, v = VObj o)).
Proof.
  apply (fromResponse_details_present_iff (host := Reference.codec)
           Sample.text_response []).
  simpl. lia.
Defined.

Lemma toResponse_default_content_type_witness :
  toResponse_checked_ref Scenario.session_expired =
  inr (toResponse_ref Scenario.session_expired) ∧
  Headers.get "Content-Type"
    (Response.headers (toResponse_ref Scenario.session_expired)) =
  Some "application/json" ∧
  Headers.get "Set-Cookie"
    (Response.headers (toResponse_ref Scenario.session_expired)) =
  Some "session_id=; Max-Age=0; Path=/" ∧
  Headers.get "X-Trace" (Response.headers (toResponse_ref Scenario.padded)) =
  Some "abc".
Proof.
  assert (∀ (k v : string) (e : HttpError.t),
    HttpError.status e = 401 ∨ HttpError.status e = 400 →
    HttpError.headers e = Some [(k, v)] →
    Headers.is_name k && Headers.is_value (Headers.normalize v) = true →
    Headers.lower k ≠ "content-type" →
    HttpError.toResponse_checked (host := Reference.codec) e =
    inr (HttpError.toResponse (host := Reference.codec) e) ∧
    Headers.get "Content-Type"
      (Response.headers (HttpError.toResponse (host := Reference.codec) e)) =
    Some "application/json" ∧
    Headers.get k
      (Response.headers (HttpError.toResponse (host := Reference.codec) e)) =
    Some (Headers.normalize v)) as Hone.
  { intros k v e Hstatus Hheaders Hvalid Hlow.
    destruct (toResponse_default_content_type (host := Reference.codec) e)
      as (Hchecked & Hdefault & Hgiven).
    - unfold accepted_status. lia.
    - rewrite Hheaders. simpl. constructor; [done|constructor].
    - rewrite Hheaders. apply NoDup_singleton.
    - rewrite Hheaders. simpl. intros k' Hk'.
      by apply list_elem_of_singleton in Hk' as ->.
    - split; [done|]. split; [by apply Hdefault|].
      apply Hgiven.
      + rewrite Hheaders. simpl. by apply list_elem_of_singleton.
      + rewrite Hheaders. simpl. intros k' Hk' _.
        by apply list_elem_of_singleton in Hk'. }
  destruct (Hone "Set-Cookie" "session_id=; Max-Age=0; Path=/"
              Scenario.session_expired) as (H1 & H2 & H3);
    [by left|reflexivity|reflexivity|discriminate|].
  destruct (Hone "X-Trace" "  abc " Scenario.padded) as (_ & _ & H4);
    [by right|reflexivity|reflexivity|discriminate|].
  split; [exact H1|]. split; [exact H2|]. split; [exact H3|exact H4].
Defined.

Lemma fromResponse_json_scalar_text_unused_witness :
  fromResponse_ref Sample.null_response [] =
  ([], Fulfilled (HttpError.new 500 "Internal Server Error" None None)).
Proof.
  apply (fromResponse_json_scalar_text_unused (host := Reference.codec)
           Sample.null_response "null" VNull []).
  - simpl. lia.
  - reflexivity.
  - vm_compute. reflexivity.
  - exact I.
Defined.

Lemma toResponse_fromResponse_text_witness :
  ∃ e,
    fromResponse_ref Sample.text_response [] = ([], Fulfilled e) ∧
    toResponse_checked_ref e = inr (toResponse_ref e) ∧
    Response.status (toResponse_ref e) = 500 ∧
    Response.body (toResponse_ref e) =
    Response.BodyText
      (Reference.stringify (VObj {[ "error" := VStr "Something went wrong" ]})).
Proof.
  apply (toResponse_fromResponse_text (host := Reference.codec)
           Sample.text_response "Something went wrong" []).
  - simpl. lia.
  - simpl. lia.
  - reflexivity.
  - vm_compute. reflexivity.
  - discriminate.
Defined.
